(** * Trust chain resolution of openid-federation-ts

    A shallow embedding of
    [packages/core/src/resolveTrustChains/resolveTrustChains.ts] and of the
    entity statement claims schema, with the properties the specification
    states about them. *)

From stdpp Require Import base option list strings.
From Stdlib Require Import ZArith.

Local Open Scope Z_scope.

(** ** Data model *)

(** JSON values; an object keeps its members in insertion order. *)
#[warnings="-register-all"]
Inductive Json : Type :=
| JNull
| JBool (b : bool)
| JNumber (z : Z)
| JString (s : string)
| JArray (items : list Json)
| JObject (members : list (string * Json)).

(** The [metadata] claim: metadata type -> object.  The literal [{}] of the
    source is [emptyObject]. *)
Definition Metadata : Type := list (string * Json).
Definition emptyObject : Metadata := [].

(** [metadata_policy]: metadata type -> attribute -> operators (optional). *)
Definition PolicyOperators : Type := list (string * Json).
Definition MetadataPolicy : Type :=
  list (string * list (string * option PolicyOperators)).

(** A JavaScript [Date], as milliseconds since the epoch. *)
Definition Instant : Type := Z.

(** Modelled from the spec: the key set schema ([jsonWebKeySetSchema]) is
    declared outside the files at hand; a key carries a key type and an
    optional key identifier, a key set is the array [keys]. *)
Record JsonWebKey : Type := {
  kty : string;
  kid : option string;
}.

Record JsonWebKeySet : Type := {
  keys : list JsonWebKey;
}.

(** The output type of [entityStatementClaimsSchema]. *)
Module EntityStatementClaims.
Record t : Type := {
  iss : string;
  sub : string;
  iat : Instant;
  exp : Instant;
  jwks : JsonWebKeySet;
  authority_hints : option (list string);
  metadata : option Metadata;
  metadata_policy : option MetadataPolicy;
  constraints : option Json;
  crit : option (list string);
  metadata_policy_crit : option (list string);
  trust_marks : option (list Json);
  trust_mark_issuers : option Json;
  trust_mark_owners : option Json;
  source_endpoint : option string;
}.
End EntityStatementClaims.

(** Modelled from the spec: [EntityConfigurationClaims] is declared outside
    the files at hand; an entity configuration is a self-signed statement
    with a validity window, a key set, optional metadata and optional
    authority hints. *)
Module EntityConfigurationClaims.
Record t : Type := {
  iss : string;
  sub : string;
  iat : Instant;
  exp : Instant;
  jwks : JsonWebKeySet;
  authority_hints : option (list string);
  metadata : option Metadata;
}.
End EntityConfigurationClaims.

Definition EntityStatementChain : Type := list EntityStatementClaims.t.
Definition EntityConfigurationChain : Type := list EntityConfigurationClaims.t.

(** Modelled from the spec: the verification capability is an opaque
    callback from a signed statement and a key to success or failure. *)
Definition VerifyCallback : Type := string → JsonWebKey → bool.

Record Options : Type := {
  verifyJwtCallback : VerifyCallback;
  entityId : string;
  trustAnchorEntityIds : list string;
}.

Record TrustChain : Type := {
  valid : bool;
  chain : EntityStatementChain;
  rawLeafEntityConfiguration : EntityConfigurationClaims.t;
  resolvedLeafMetadata : option Metadata;
  trustAnchorEntityConfiguration : EntityConfigurationClaims.t;
}.

(** ** Errors *)

(** Modelled from the spec: the stages of [PolicyErrorStage]; the source at
    hand names [Validation] and tests for the critical-policy stage. *)
Inductive PolicyErrorStage : Type :=
| Validation
| MetadataPolicyCrit.

(** The values a [throw] can carry in [resolveTrustChains]. *)
Inductive Error : Type :=
| PolicyOperatorMergeError (message : string)
| PolicyValidationError (message : string)
| OpenIdFederationError (stage : PolicyErrorStage) (message : string)
| TypeError (message : string)
| UnexpectedError (message : string).

(** [error instanceof PolicyOperatorMergeError] *)
Definition instanceofPolicyOperatorMergeError (error : Error) : bool :=
  match error with PolicyOperatorMergeError _ => true | _ => false end.

(** [error instanceof PolicyValidationError] *)
Definition instanceofPolicyValidationError (error : Error) : bool :=
  match error with PolicyValidationError _ => true | _ => false end.

(** Modelled from the spec: [OpenIdFederationError.isMetadataPolicyCritError]
    recognises the "critical policy unsupported" condition. *)
Definition isMetadataPolicyCritError (error : Error) : bool :=
  match error with
  | OpenIdFederationError MetadataPolicyCrit _ => true
  | _ => false
  end.

(** A synchronous computation that returns a value or throws. *)
Definition Throws (A : Type) : Type := Error + A.

Inductive TryResult (A : Type) : Type :=
| Success (value : A)
| Failure (error : Error).
Arguments Success {A} value.
Arguments Failure {A} error.

(** Modelled from the spec: [tryCatch] lives in [../utils/tryCatch], outside
    the files at hand.  A failure of the wrapped call is recovered locally:
    [tryCatch(() => ...)] turns a thrown error into a failed result, which
    the caller inspects through [success], [value] and [error]. *)
Definition tryCatch {A : Type} (thunk : Throws A) : TryResult A :=
  match thunk with
  | inr value => Success value
  | inl error => Failure error
  end.

(** ** Asynchronous computations over a wall clock

    The state counts the suspensions so far; the wall clock gives the
    instant read after that many suspensions.  A computation returns a
    value or throws, and leaves the new count. *)
Definition Clock : Type := nat → Instant.

Definition Async (A : Type) : Type := nat → Throws A * nat.

#[global] Instance Async_ret : MRet Async := λ A x t, (inr x, t).

#[global] Instance Async_bind : MBind Async := λ A B f m t,
  match m t with
  | (inr x, t') => f x t'
  | (inl e, t') => (inl e, t')
  end.

#[global] Instance Async_throw : MThrow Error Async := λ A e t, (inl e, t).

(** [await p] for a promise [p] that settles, resolved with a value or
    rejected with an error: time passes, and a rejection is thrown. *)
Definition await {A : Type} (p : Throws A) : Async A := λ t, (p, S t).

(** [new Date()] *)
Definition newDate (clock : Clock) : Async Instant := λ t, (inr (clock t), t).

(** What the caller of an async function observes. *)
Definition settled {A : Type} (m : Async A) (t : nat) : Throws A := (m t).1.

(** ** Collaborators

    The functions [resolveTrustChains] imports from other modules.  Each of
    them may fail: the promise of a fetch function may be rejected, and the
    synchronous ones may throw. *)
Class Collaborators : Type := {
  fetchEntityConfigurationChains :
    string → list string → VerifyCallback → Throws (list EntityConfigurationChain);
  fetchEntityStatementChain :
    EntityConfigurationChain → VerifyCallback → Throws EntityStatementChain;
  combineMetadataPolicies : list EntityStatementClaims.t → Throws MetadataPolicy;
  mergeMetadata : Metadata → Metadata → Throws Metadata;
  applyMetadataPolicyToMetadata : Metadata → MetadataPolicy → Throws Metadata;
}.

(** ** resolveTrustChains *)

(** What one pass through the body of the [for] loop does to the loop. *)
Inductive Step : Type :=
| Continue
| Push (trustChain : TrustChain)
| Throw (error : Error).

(** [array.slice(0, -1)] *)
Definition slice_0_m1 {A : Type} (array : list A) : list A :=
  take (length array - 1)%nat array.

(** [array[array.length - 1]]; index [-1] of the empty array is
    [undefined]. *)
Definition at_length_m1 {A : Type} (array : list A) : option A :=
  match array with
  | [] => None
  | _ => array !! (length array - 1)%nat
  end.

Section Resolver.
Context `{Collaborators}.

(** The loop body after the statement chain has been awaited
    (lines 68-154).  Reading [.metadata] of an [undefined] leaf
    configuration throws a [TypeError]; the call of [mergeMetadata] is not
    wrapped in [tryCatch], so what it throws leaves the body. *)
Definition resolveCandidate (now : Instant)
    (entityConfigurationChain : EntityConfigurationChain)
    (entityStatementChain : EntityStatementChain) : Step :=
  if bool_decide (length entityStatementChain = 0%nat) then Continue
  else if existsb (λ statement, EntityStatementClaims.exp statement <? now)
                  entityStatementChain
  then Continue
  else
    let leafEntityConfiguration := entityConfigurationChain !! 0%nat in
    if bool_decide (length entityStatementChain = 1%nat) then
      match leafEntityConfiguration with
      | None => Throw (TypeError "Cannot read properties of undefined (reading 'metadata')")
      | Some leaf =>
          Push {| valid := true;
                  chain := entityStatementChain;
                  trustAnchorEntityConfiguration := leaf;
                  rawLeafEntityConfiguration := leaf;
                  resolvedLeafMetadata := EntityConfigurationClaims.metadata leaf |}
      end
    else
      let statementsWithoutLeaf := slice_0_m1 entityStatementChain in
      match tryCatch (combineMetadataPolicies statementsWithoutLeaf) with
      | Failure error =>
          if instanceofPolicyOperatorMergeError error then Continue
          else if isMetadataPolicyCritError error then Continue
          else Continue
      | Success mergedPolicy =>
          let superiorEntityStatement := statementsWithoutLeaf !! 0%nat in
          match leafEntityConfiguration with
          | None => Throw (TypeError "Cannot read properties of undefined (reading 'metadata')")
          | Some leaf =>
              match mergeMetadata
                      (default emptyObject (EntityConfigurationClaims.metadata leaf))
                      (default emptyObject
                         (superiorEntityStatement ≫= EntityStatementClaims.metadata)) with
              | inl error => Throw error
              | inr mergedLeafMetadata =>
                  match tryCatch (applyMetadataPolicyToMetadata mergedLeafMetadata mergedPolicy) with
                  | Failure error =>
                      if instanceofPolicyValidationError error then Continue
                      else Continue
                  | Success resolved =>
                      match at_length_m1 entityConfigurationChain with
                      | None =>
                          Throw (OpenIdFederationError Validation
                                   "No trust anchor entity configuration found")
                      | Some trustAnchor =>
                          Push {| valid := true;
                                  chain := entityStatementChain;
                                  trustAnchorEntityConfiguration := trustAnchor;
                                  rawLeafEntityConfiguration := leaf;
                                  resolvedLeafMetadata := Some resolved |}
                      end
                  end
              end
          end
      end.

(** The [for ... of] loop over the candidate configuration chains, with
    the accumulated [trustChains]. *)
Fixpoint resolveCandidates (verify : VerifyCallback) (now : Instant)
    (entityConfigurationChains : list EntityConfigurationChain)
    (trustChains : list TrustChain) : Async (list TrustChain) :=
  match entityConfigurationChains with
  | [] => mret trustChains
  | entityConfigurationChain :: rest =>
      entityStatementChain ←
        await (fetchEntityStatementChain entityConfigurationChain verify);
      match resolveCandidate now entityConfigurationChain entityStatementChain with
      | Continue => resolveCandidates verify now rest trustChains
      | Push trustChain =>
          resolveCandidates verify now rest (trustChains ++ [trustChain])
      | Throw error => mthrow error
      end
  end.

Definition resolveTrustChains (clock : Clock) (options : Options)
    : Async (list TrustChain) :=
  now ← newDate clock;
  entityConfigurationChains ←
    await (fetchEntityConfigurationChains (entityId options)
             (trustAnchorEntityIds options) (verifyJwtCallback options));
  resolveCandidates (verifyJwtCallback options) now entityConfigurationChains [].

(** The per-candidate failures of the body, for a candidate whose statement
    chain was fetched: no verifiable path, an expired statement, a
    combination that throws (an operator-merge error, a critical-policy
    error or any other error) and an application that throws (a
    policy-validation error or any other error). *)
Inductive PerCandidateFailure (verify : VerifyCallback) (now : Instant)
    (candidate : EntityConfigurationChain) : Prop :=
| NoVerifiablePath :
    fetchEntityStatementChain candidate verify = inr [] →
    PerCandidateFailure verify now candidate
| TemporalInvalidity (statements : EntityStatementChain)
    (statement : EntityStatementClaims.t) :
    fetchEntityStatementChain candidate verify = inr statements →
    statement ∈ statements →
    EntityStatementClaims.exp statement < now →
    PerCandidateFailure verify now candidate
| CombinationFailure (statements : EntityStatementChain) (error : Error) :
    fetchEntityStatementChain candidate verify = inr statements →
    (2 ≤ length statements)%nat →
    combineMetadataPolicies (slice_0_m1 statements) = inl error →
    PerCandidateFailure verify now candidate
| ApplicationFailure (statements : EntityStatementChain)
    (leaf : EntityConfigurationClaims.t)
    (mergedPolicy : MetadataPolicy) (mergedLeafMetadata : Metadata) (error : Error) :
    fetchEntityStatementChain candidate verify = inr statements →
    (2 ≤ length statements)%nat →
    candidate !! 0%nat = Some leaf →
    combineMetadataPolicies (slice_0_m1 statements) = inr mergedPolicy →
    mergeMetadata
      (default emptyObject (EntityConfigurationClaims.metadata leaf))
      (default emptyObject
         (slice_0_m1 statements !! 0%nat ≫= EntityStatementClaims.metadata))
      = inr mergedLeafMetadata →
    applyMetadataPolicyToMetadata mergedLeafMetadata mergedPolicy = inl error →
    PerCandidateFailure verify now candidate.

(** The collaborators called outside [tryCatch] return: the merger on every
    pair of metadata objects, verification for each of the given
    candidates. *)
Definition MergerReturns : Prop :=
  ∀ subject superior, ∃ merged, mergeMetadata subject superior = inr merged.

Definition VerificationReturns (verify : VerifyCallback)
    (candidates : list EntityConfigurationChain) : Prop :=
  Forall (λ candidate, ∃ statements,
            fetchEntityStatementChain candidate verify = inr statements) candidates.

End Resolver.

(** ** The metadata policy combiner *)

(** The same collaborators with another policy combiner. *)
Definition withCombiner (K : Collaborators)
    (combine : list EntityStatementClaims.t → Throws MetadataPolicy) : Collaborators :=
  {| fetchEntityConfigurationChains := @fetchEntityConfigurationChains K;
     fetchEntityStatementChain := @fetchEntityStatementChain K;
     combineMetadataPolicies := combine;
     mergeMetadata := @mergeMetadata K;
     applyMetadataPolicyToMetadata := @applyMetadataPolicyToMetadata K |}.

(** Whether a statement declares, in [metadata_policy_crit], an operator
    outside [knownOperators]. *)
Definition declaresUnknownCriticalOperator (knownOperators : list string)
    (statement : EntityStatementClaims.t) : bool :=
  existsb (λ operator, negb (bool_decide (operator ∈ knownOperators)))
          (default [] (EntityStatementClaims.metadata_policy_crit statement)).

(** Modelled from the spec: [combineMetadataPolicies] lives in
    [./policies], outside the files at hand.  Its criticality rule: when a
    statement declares a [metadata_policy_crit] entry naming an operator the
    combiner does not recognize, combination fails with the "critical policy
    unsupported" condition; otherwise the policies are folded by the
    per-operator rules [foldPolicies], which the spec leaves open. *)
Definition specCombineMetadataPolicies (knownOperators : list string)
    (foldPolicies : list EntityStatementClaims.t → Throws MetadataPolicy)
    (statements : list EntityStatementClaims.t) : Throws MetadataPolicy :=
  if existsb (declaresUnknownCriticalOperator knownOperators) statements
  then inl (OpenIdFederationError MetadataPolicyCrit
              "metadata_policy_crit names an unsupported operator")
  else foldPolicies statements.

(** ** entityStatementClaimsSchema *)

Record ZodIssue : Type := {
  code : string;
  message : string;
  path : list string;
}.

Inductive SafeParseResult (A : Type) : Type :=
| ParseSuccess (data : A)
| ParseError (issues : list ZodIssue).
Arguments ParseSuccess {A} data.
Arguments ParseError {A} issues.

(** [array.indexOf(searchElement)]: the first index holding a strictly
    equal element, [-1] when there is none.  An absent [kid] is
    [undefined], here [None]. *)
Fixpoint indexOf (array : list (option string)) (searchElement : option string) : Z :=
  match array with
  | [] => -1
  | element :: rest =>
      if bool_decide (element = searchElement) then 0
      else let found := indexOf rest searchElement in
           if found <? 0 then -1 else found + 1
  end.

(** [array.some((element, i) => callback(element, i))], with the index of
    the first element of [array] being [i]. *)
Fixpoint someFrom {A : Type} (callback : A → Z → bool) (i : Z) (array : list A) : bool :=
  match array with
  | [] => false
  | element :: rest => callback element i || someFrom callback (i + 1) rest
  end.

Definition some {A : Type} (callback : A → Z → bool) (array : list A) : bool :=
  someFrom callback 0 array.

Definition duplicateKeyIdsIssue : ZodIssue :=
  {| code := "custom";
     message := "keys include duplicate key ids";
     path := ["jwks"; "keys"] |}.

(** The callback of [superRefine]: the issues it adds to the context. *)
Definition superRefine (data : EntityStatementClaims.t) : list ZodIssue :=
  let keyIds := map kid (keys (EntityStatementClaims.jwks data)) in
  if some (λ key i, negb (indexOf keyIds key =? i)) keyIds
  then [duplicateKeyIdsIssue]
  else [].

(** What parsing with the inner schema leaves for a refinement: a valid
    value; a dirty one, parsed but with issues from checks that do not abort
    (a string that is not a URL); or an aborted parse without a value (a
    missing or wrongly typed field). *)
Inductive ObjectParse : Type :=
| Valid (data : EntityStatementClaims.t)
| Dirty (data : EntityStatementClaims.t) (issues : list ZodIssue)
| Aborted (issues : list ZodIssue).

Section Schema.
Context {Input : Type}.

(** The [z.object({...})] part of the schema: its field schemas are declared
    outside the files at hand. *)
Variable objectSchema : Input → ObjectParse.

(** [entityStatementClaimsSchema.safeParse(input)]: the refinement runs on
    the value the object schema produced, also on a dirty one, and its
    issues follow the object schema's; parsing succeeds when there is no
    issue at all. *)
Definition entityStatementClaimsSchema (input : Input)
    : SafeParseResult EntityStatementClaims.t :=
  match objectSchema input with
  | Aborted issues => ParseError issues
  | Dirty data issues => ParseError (issues ++ superRefine data)
  | Valid data =>
      match superRefine data with
      | [] => ParseSuccess data
      | issues => ParseError issues
      end
  end.

End Schema.

(** ** A small federation, for the examples *)

Definition noKeys : JsonWebKeySet := {| keys := [] |}.

Definition configurationOf (id : string) (metadata : option Metadata)
    : EntityConfigurationClaims.t :=
  {| EntityConfigurationClaims.iss := id;
     EntityConfigurationClaims.sub := id;
     EntityConfigurationClaims.iat := 0;
     EntityConfigurationClaims.exp := 9000;
     EntityConfigurationClaims.jwks := noKeys;
     EntityConfigurationClaims.authority_hints := None;
     EntityConfigurationClaims.metadata := metadata |}.

Definition statementOf (issuer subject : string) (expiry : Instant)
    (metadata : option Metadata) (policy : option MetadataPolicy)
    (policyCrit : option (list string)) : EntityStatementClaims.t :=
  {| EntityStatementClaims.iss := issuer;
     EntityStatementClaims.sub := subject;
     EntityStatementClaims.iat := 0;
     EntityStatementClaims.exp := expiry;
     EntityStatementClaims.jwks := noKeys;
     EntityStatementClaims.authority_hints := None;
     EntityStatementClaims.metadata := metadata;
     EntityStatementClaims.metadata_policy := policy;
     EntityStatementClaims.constraints := None;
     EntityStatementClaims.crit := None;
     EntityStatementClaims.metadata_policy_crit := policyCrit;
     EntityStatementClaims.trust_marks := None;
     EntityStatementClaims.trust_mark_issuers := None;
     EntityStatementClaims.trust_mark_owners := None;
     EntityStatementClaims.source_endpoint := None |}.

Definition subjects (configurations : EntityConfigurationChain) : list string :=
  map EntityConfigurationClaims.sub configurations.

(** The statement chain a table of candidates records for the
    configuration chain with the given subjects. *)
Fixpoint statementsFor (table : list (EntityConfigurationChain * EntityStatementChain))
    (key : list string) : EntityStatementChain :=
  match table with
  | [] => []
  | (configurations, statements) :: rest =>
      if bool_decide (subjects configurations = key) then statements
      else statementsFor rest key
  end.

Definition standardOperators : list string :=
  ["value"; "add"; "default"; "one_of"; "subset_of"; "superset_of"; "essential"].

(** Stand-ins for the policy functions: policies are concatenated, the
    superior's metadata is appended to the subject's, and only the empty
    policy is satisfied. *)
Definition concatPolicies (statements : list EntityStatementClaims.t)
    : Throws MetadataPolicy :=
  inr (flat_map (λ statement,
                   default [] (EntityStatementClaims.metadata_policy statement))
                statements).

Definition appendMetadata (subject superior : Metadata) : Metadata :=
  subject ++ superior.

Definition applyEmptyPolicy (metadata : Metadata) (policy : MetadataPolicy)
    : Throws Metadata :=
  match policy with
  | [] => inr metadata
  | _ => inl (PolicyValidationError "policy not satisfied")
  end.

(** Discovery and verification answer from the table; the combiner is the
    one modelled from the spec. *)
Definition tableCollaborators
    (table : list (EntityConfigurationChain * EntityStatementChain)) : Collaborators :=
  {| fetchEntityConfigurationChains := λ _ _ _, inr (map fst table);
     fetchEntityStatementChain :=
       λ configurations _, inr (statementsFor table (subjects configurations));
     combineMetadataPolicies := specCombineMetadataPolicies standardOperators concatPolicies;
     mergeMetadata := λ subject superior, inr (appendMetadata subject superior);
     applyMetadataPolicyToMetadata := applyEmptyPolicy |}.

(** The same, with a verification whose promise is rejected. *)
Definition rejectingVerification
    (table : list (EntityConfigurationChain * EntityStatementChain)) : Collaborators :=
  {| fetchEntityConfigurationChains := λ _ _ _, inr (map fst table);
     fetchEntityStatementChain := λ _ _, inl (UnexpectedError "fetch failed");
     combineMetadataPolicies := specCombineMetadataPolicies standardOperators concatPolicies;
     mergeMetadata := λ subject superior, inr (appendMetadata subject superior);
     applyMetadataPolicyToMetadata := applyEmptyPolicy |}.

(** The same, with a merger that throws. *)
Definition throwingMerger
    (table : list (EntityConfigurationChain * EntityStatementChain)) : Collaborators :=
  {| fetchEntityConfigurationChains := λ _ _ _, inr (map fst table);
     fetchEntityStatementChain :=
       λ configurations _, inr (statementsFor table (subjects configurations));
     combineMetadataPolicies := specCombineMetadataPolicies standardOperators concatPolicies;
     mergeMetadata := λ _ _, inl (UnexpectedError "merge failed");
     applyMetadataPolicyToMetadata := applyEmptyPolicy |}.

Definition acceptAll : VerifyCallback := λ _ _, true.

Definition exampleOptions : Options :=
  {| verifyJwtCallback := acceptAll;
     entityId := "https://leaf.example";
     trustAnchorEntityIds := ["https://anchor.example"] |}.

(** A wall clock that reads 1000 at the start of the call and drifts
    backwards afterwards. *)
Definition driftingClock : Clock := λ t, match t with O => 1000 | S _ => 10 end.

Definition leafConfiguration : EntityConfigurationClaims.t :=
  configurationOf "https://leaf.example"
    (Some [("openid_provider", JObject [("organization_name", JString "A")])]).

Definition intermediateConfiguration : EntityConfigurationClaims.t :=
  configurationOf "https://intermediate.example" None.

Definition anchorConfiguration : EntityConfigurationClaims.t :=
  configurationOf "https://anchor.example" None.

Definition superiorMetadata : Metadata :=
  [("federation_entity", JObject [("organization_name", JString "Anchor")])].

(** Statements of the example federation; the wall clock reads 1000 at the
    start of the example calls. *)
Definition directStatement : EntityStatementClaims.t :=
  statementOf "https://leaf.example" "https://leaf.example" 5000 None None None.

Definition expiredDirectStatement : EntityStatementClaims.t :=
  statementOf "https://leaf.example" "https://leaf.example" 500 None None None.

Definition expiredStatement : EntityStatementClaims.t :=
  statementOf "https://intermediate.example" "https://leaf.example" 500 None None None.

Definition intermediateStatement : EntityStatementClaims.t :=
  statementOf "https://anchor.example" "https://intermediate.example" 5000 None None None.

Definition anchorStatement : EntityStatementClaims.t :=
  statementOf "https://anchor.example" "https://anchor.example" 5000 None None None.

Definition superiorStatement : EntityStatementClaims.t :=
  statementOf "https://anchor.example" "https://leaf.example" 5000
    (Some superiorMetadata) None None.

Definition criticalStatement : EntityStatementClaims.t :=
  statementOf "https://anchor.example" "https://leaf.example" 5000
    None None (Some ["regexp"]).

Definition criticalAnchorStatement : EntityStatementClaims.t :=
  statementOf "https://anchor.example" "https://anchor.example" 5000
    None None (Some ["regexp"]).

(** The leaf is its own anchor, and has a second, expired path through the
    intermediate. *)
Definition federationTable : list (EntityConfigurationChain * EntityStatementChain) :=
  [ ([leafConfiguration], [directStatement]);
    ([leafConfiguration; intermediateConfiguration; anchorConfiguration],
     [expiredStatement; intermediateStatement; anchorStatement]) ].

(** The only statement of the only candidate is expired. *)
Definition expiredDirectTable : list (EntityConfigurationChain * EntityStatementChain) :=
  [ ([leafConfiguration], [expiredDirectStatement]) ].

(** The superior's statement about the leaf declares a critical operator the
    combiner does not know. *)
Definition criticalTable : list (EntityConfigurationChain * EntityStatementChain) :=
  [ ([leafConfiguration; anchorConfiguration], [criticalStatement; anchorStatement]) ].

(** Only the anchor's terminal statement declares that operator. *)
Definition criticalAnchorTable : list (EntityConfigurationChain * EntityStatementChain) :=
  [ ([leafConfiguration; anchorConfiguration], [superiorStatement; criticalAnchorStatement]) ].

(** Discovery returned an empty configuration chain, with no verifiable
    path. *)
Definition emptyChainTable : list (EntityConfigurationChain * EntityStatementChain) :=
  [ ([], []) ].

(** Discovery returned an empty configuration chain, for which verification
    still produced a statement. *)
Definition emptyChainWithStatementTable
    : list (EntityConfigurationChain * EntityStatementChain) :=
  [ ([], [anchorStatement]) ].

Definition directTrustChain : TrustChain :=
  {| valid := true;
     chain := [directStatement];
     rawLeafEntityConfiguration := leafConfiguration;
     resolvedLeafMetadata := EntityConfigurationClaims.metadata leafConfiguration;
     trustAnchorEntityConfiguration := leafConfiguration |}.

Definition criticalAnchorTrustChain : TrustChain :=
  {| valid := true;
     chain := [superiorStatement; criticalAnchorStatement];
     rawLeafEntityConfiguration := leafConfiguration;
     resolvedLeafMetadata :=
       Some [("openid_provider", JObject [("organization_name", JString "A")]);
             ("federation_entity", JObject [("organization_name", JString "Anchor")])];
     trustAnchorEntityConfiguration := anchorConfiguration |}.


Definition anchoredTrustChain : TrustChain :=
  {| valid := true;
     chain := [superiorStatement; anchorStatement];
     rawLeafEntityConfiguration := leafConfiguration;
     resolvedLeafMetadata :=
       Some [("openid_provider", JObject [("organization_name", JString "A")]);
             ("federation_entity", JObject [("organization_name", JString "Anchor")])];
     trustAnchorEntityConfiguration := anchorConfiguration |}.

(** Keys and claims for the schema examples. *)
Definition keyWithId (id : string) : JsonWebKey := {| kty := "EC"; kid := Some id |}.
Definition keyWithoutId : JsonWebKey := {| kty := "EC"; kid := None |}.

Definition claimsWithKeys (keySet : list JsonWebKey) : EntityStatementClaims.t :=
  {| EntityStatementClaims.iss := "https://anchor.example";
     EntityStatementClaims.sub := "https://leaf.example";
     EntityStatementClaims.iat := 0;
     EntityStatementClaims.exp := 5000;
     EntityStatementClaims.jwks := {| keys := keySet |};
     EntityStatementClaims.authority_hints := None;
     EntityStatementClaims.metadata := None;
     EntityStatementClaims.metadata_policy := None;
     EntityStatementClaims.constraints := None;
     EntityStatementClaims.crit := None;
     EntityStatementClaims.metadata_policy_crit := None;
     EntityStatementClaims.trust_marks := None;
     EntityStatementClaims.trust_mark_issuers := None;
     EntityStatementClaims.trust_mark_owners := None;
     EntityStatementClaims.source_endpoint := None |}.

(** An object schema whose input is already of the output's shape. *)
Definition acceptObject (input : EntityStatementClaims.t) : ObjectParse :=
  Valid input.

(** An object schema that parses its input but finds, say, a
    [source_endpoint] that is not a URL. *)
Definition invalidUrlIssue : ZodIssue :=
  {| code := "invalid_string";
     message := "Invalid url";
     path := ["source_endpoint"] |}.

Definition dirtyObject (input : EntityStatementClaims.t) : ObjectParse :=
  Dirty input [invalidUrlIssue].

(** ** Reasoning about the loop *)

Section ResolverFacts.
Context `{Collaborators}.
Implicit Types (now : Instant) (verify : VerifyCallback).
Implicit Types (candidate : EntityConfigurationChain) (statements : EntityStatementChain).

Lemma resolveCandidates_cons verify now candidate rest trustChains t :
  resolveCandidates verify now (candidate :: rest) trustChains t =
  match fetchEntityStatementChain candidate verify with
  | inl error => (inl error, S t)
  | inr statements =>
      match resolveCandidate now candidate statements with
      | Continue => resolveCandidates verify now rest trustChains (S t)
      | Push trustChain => resolveCandidates verify now rest (trustChains ++ [trustChain]) (S t)
      | Throw error => (inl error, S t)
      end
  end.
Proof.
  cbn. unfold mbind, Async_bind, await.
  destruct (fetchEntityStatementChain candidate verify) as [error|statements]; [done|].
  destruct (resolveCandidate _ _ _); reflexivity.
Qed.

(** One pass of the loop for a candidate whose statement chain was
    fetched. *)
Lemma resolveCandidates_fetched verify now candidate statements rest trustChains t :
  fetchEntityStatementChain candidate verify = inr statements →
  resolveCandidates verify now (candidate :: rest) trustChains t =
  match resolveCandidate now candidate statements with
  | Continue => resolveCandidates verify now rest trustChains (S t)
  | Push trustChain => resolveCandidates verify now rest (trustChains ++ [trustChain]) (S t)
  | Throw error => (inl error, S t)
  end.
Proof. intros Hfetch. by rewrite resolveCandidates_cons, Hfetch. Qed.

(** The outcome of the loop does not depend on the suspension count. *)
Lemma settled_resolveCandidates_tick verify now candidates trustChains t t' :
  settled (resolveCandidates verify now candidates trustChains) t =
  settled (resolveCandidates verify now candidates trustChains) t'.
Proof.
  revert trustChains t t'.
  induction candidates as [|candidate rest IH]; intros trustChains t t'.
  - reflexivity.
  - unfold settled in *. rewrite !resolveCandidates_cons.
    destruct (fetchEntityStatementChain candidate verify); [done|].
    destruct (resolveCandidate _ _ _); auto.
Qed.

Lemma settled_resolveCandidates_app verify now pre post trustChains t :
  settled (resolveCandidates verify now (pre ++ post) trustChains) t =
  match settled (resolveCandidates verify now pre trustChains) t with
  | inl error => inl error
  | inr trustChains' => settled (resolveCandidates verify now post trustChains') t
  end.
Proof.
  revert trustChains t.
  induction pre as [|candidate rest IH]; intros trustChains t.
  - reflexivity.
  - unfold settled in *. rewrite <- app_comm_cons, !resolveCandidates_cons.
    destruct (fetchEntityStatementChain candidate verify); [done|].
    destruct (resolveCandidate _ _ _).
    + rewrite IH. destruct (resolveCandidates verify now rest trustChains (S t)).1; auto.
      apply (settled_resolveCandidates_tick verify now post).
    + rewrite IH. destruct (resolveCandidates verify now rest _ (S t)).1; auto.
      apply (settled_resolveCandidates_tick verify now post).
    + reflexivity.
Qed.

(** The call is the loop, entered after the suspension for discovery. *)
Lemma resolveTrustChains_unfold clock options t candidates :
  fetchEntityConfigurationChains (entityId options) (trustAnchorEntityIds options)
    (verifyJwtCallback options) = inr candidates →
  resolveTrustChains clock options t =
  resolveCandidates (verifyJwtCallback options) (clock t) candidates [] (S t).
Proof.
  intros Hdiscovery. unfold resolveTrustChains, mbind, Async_bind, newDate, await.
  by rewrite Hdiscovery.
Qed.

(** A rejected discovery rejects the call. *)
Lemma resolveTrustChains_rejected clock options t error :
  fetchEntityConfigurationChains (entityId options) (trustAnchorEntityIds options)
    (verifyJwtCallback options) = inl error →
  resolveTrustChains clock options t = (inl error, S t).
Proof.
  intros Hdiscovery. unfold resolveTrustChains, mbind, Async_bind, newDate, await.
  by rewrite Hdiscovery.
Qed.

(** The call is the loop, run with the instant read at the start. *)
Lemma settled_resolveTrustChains clock options t candidates :
  fetchEntityConfigurationChains (entityId options) (trustAnchorEntityIds options)
    (verifyJwtCallback options) = inr candidates →
  settled (resolveTrustChains clock options) t =
  settled (resolveCandidates (verifyJwtCallback options) (clock t) candidates []) t.
Proof.
  intros Hdiscovery. unfold settled at 1.
  rewrite (resolveTrustChains_unfold _ _ _ _ Hdiscovery).
  apply (settled_resolveCandidates_tick _ _ _ _ (S t) t).
Qed.

(** A candidate on which the body continues contributes nothing. *)
Lemma settled_skip verify now pre candidate statements post trustChains t :
  fetchEntityStatementChain candidate verify = inr statements →
  resolveCandidate now candidate statements = Continue →
  settled (resolveCandidates verify now (pre ++ candidate :: post) trustChains) t =
  settled (resolveCandidates verify now (pre ++ post) trustChains) t.
Proof.
  intros Hfetch Hskip. rewrite !settled_resolveCandidates_app.
  destruct (settled (resolveCandidates verify now pre trustChains) t) as [|acc]; auto.
  unfold settled. rewrite (resolveCandidates_fetched _ _ _ _ _ _ _ Hfetch), Hskip.
  apply (settled_resolveCandidates_tick verify now post).
Qed.

Lemma resolveCandidate_expired now candidate statements :
  existsb (λ statement, EntityStatementClaims.exp statement <? now) statements = true →
  resolveCandidate now candidate statements = Continue.
Proof.
  intros Hexp. unfold resolveCandidate. rewrite Hexp.
  case_bool_decide; reflexivity.
Qed.

Lemma existsb_expired now statements i statement :
  statements !! i = Some statement →
  EntityStatementClaims.exp statement < now →
  existsb (λ statement, EntityStatementClaims.exp statement <? now) statements = true.
Proof.
  intros Hi Hlt. apply existsb_exists. exists statement. split.
  - apply list_elem_of_In. eapply list_elem_of_lookup_2; eauto.
  - apply Z.ltb_lt, Hlt.
Qed.

End ResolverFacts.

Section ResolverInvariants.
Context `{Collaborators}.

(** Whatever the body pushes carries the awaited statement chain, and that
    chain passed the expiry test. *)
Lemma resolveCandidate_Push_inv now candidate statements trustChain :
  resolveCandidate now candidate statements = Push trustChain →
  chain trustChain = statements ∧
  existsb (λ statement, EntityStatementClaims.exp statement <? now) statements = false.
Proof.
  unfold resolveCandidate. intros Hpush.
  repeat case_match; simplify_eq; auto.
Qed.

Lemma resolveCandidates_unexpired verify now candidates trustChains t result :
  Forall (λ trustChain, ∀ statement, statement ∈ chain trustChain →
            now ≤ EntityStatementClaims.exp statement) trustChains →
  settled (resolveCandidates verify now candidates trustChains) t = inr result →
  Forall (λ trustChain, ∀ statement, statement ∈ chain trustChain →
            now ≤ EntityStatementClaims.exp statement) result.
Proof.
  revert trustChains t.
  induction candidates as [|candidate rest IH]; intros trustChains t Hacc Hres.
  - cbn in Hres. by simplify_eq.
  - unfold settled in *. rewrite resolveCandidates_cons in Hres.
    destruct (fetchEntityStatementChain candidate verify) as [|statements]; [done|].
    destruct (resolveCandidate _ _ _) as [|trustChain|error] eqn:Hstep.
    + by eapply IH.
    + eapply IH; [|done]. apply Forall_app. split; [done|].
      apply Forall_singleton. intros statement Hin.
      apply resolveCandidate_Push_inv in Hstep as [Hchain Hnone].
      rewrite Hchain in Hin.
      destruct (Z.ltb_spec (EntityStatementClaims.exp statement) now) as [Hlt|]; [|done].
      exfalso. apply list_elem_of_lookup in Hin as [i Hi].
      by rewrite (existsb_expired _ _ _ _ Hi Hlt) in Hnone.
    + done.
Qed.

End ResolverInvariants.

(** ** Temporal validity *)

(** C1: when the statement at some position of a candidate's verified
    statement chain expires strictly before the instant read at the start of
    the call, the call returns what the loop returns on the other candidates
    alone: no trust chain derived from that candidate is in the result. *)
Theorem expired_statement_excludes_candidate `{Collaborators}
    (clock : Clock) (options : Options) (t : nat)
    (pre post : list EntityConfigurationChain) (candidate : EntityConfigurationChain)
    (statements : EntityStatementChain)
    (i : nat) (statement : EntityStatementClaims.t) :
  fetchEntityConfigurationChains (entityId options) (trustAnchorEntityIds options)
    (verifyJwtCallback options) = inr (pre ++ candidate :: post) →
  fetchEntityStatementChain candidate (verifyJwtCallback options) = inr statements →
  statements !! i = Some statement →
  EntityStatementClaims.exp statement < clock t →
  settled (resolveTrustChains clock options) t =
  settled (resolveCandidates (verifyJwtCallback options) (clock t) (pre ++ post) []) t.
Proof.
  intros Hchains Hfetch Hi Hlt.
  rewrite (settled_resolveTrustChains _ _ _ _ Hchains).
  eapply settled_skip; [done|].
  apply resolveCandidate_expired. eapply existsb_expired; eauto.
Qed.

(** C8: the outcome of a call depends on the wall clock only through the
    instant read at the start of the call, whatever the clock reads after
    any later suspension; and every statement of every returned trust chain
    has passed the expiry test against that one instant. *)
Theorem single_snapshot_instant `{Collaborators}
    (clock clock' : Clock) (options : Options) (t : nat) :
  clock t = clock' t →
  settled (resolveTrustChains clock options) t =
  settled (resolveTrustChains clock' options) t
  ∧ ∀ trustChains trustChain statement,
      settled (resolveTrustChains clock options) t = inr trustChains →
      trustChain ∈ trustChains →
      statement ∈ chain trustChain →
      clock t ≤ EntityStatementClaims.exp statement.
Proof.
  intros Hstart.
  destruct (fetchEntityConfigurationChains (entityId options)
              (trustAnchorEntityIds options) (verifyJwtCallback options))
    as [error|candidates] eqn:Hdiscovery.
  { unfold settled. rewrite !(resolveTrustChains_rejected _ _ _ _ Hdiscovery).
    split; [done|]. intros ??? Hres. discriminate Hres. }
  split.
  - rewrite !(settled_resolveTrustChains _ _ _ _ Hdiscovery). by rewrite Hstart.
  - intros trustChains trustChain statement Hres Hin Hst.
    rewrite (settled_resolveTrustChains _ _ _ _ Hdiscovery) in Hres.
    eapply resolveCandidates_unexpired in Hres; [|by apply Forall_nil].
    rewrite Forall_forall in Hres. by eapply Hres.
Qed.

Section CandidateFacts.
Context `{Collaborators}.

(** The accumulated trust chains are only ever extended. *)
Lemma resolveCandidates_extends verify now candidates trustChains t result :
  settled (resolveCandidates verify now candidates trustChains) t = inr result →
  ∃ more, result = trustChains ++ more.
Proof.
  revert trustChains t.
  induction candidates as [|candidate rest IH]; intros trustChains t Hres.
  - cbn in Hres. simplify_eq. exists []. by rewrite app_nil_r.
  - unfold settled in *. rewrite resolveCandidates_cons in Hres.
    destruct (fetchEntityStatementChain candidate verify) as [|statements]; [done|].
    destruct (resolveCandidate _ _ _) as [|trustChain|error].
    + by eapply IH.
    + apply IH in Hres as [more ->]. exists (trustChain :: more).
      by rewrite <- app_assoc.
    + done.
Qed.

(** A body that throws on some candidate makes the loop throw: on that
    candidate, or on an earlier one. *)
Lemma resolveCandidates_throws verify now candidates candidate statements error
    trustChains t :
  candidate ∈ candidates →
  fetchEntityStatementChain candidate verify = inr statements →
  resolveCandidate now candidate statements = Throw error →
  ∃ error', settled (resolveCandidates verify now candidates trustChains) t = inl error'.
Proof.
  intros Hin Hfetch Hthrow. revert trustChains t.
  induction Hin as [candidate rest|candidate other rest Hin IH]; intros trustChains t;
    unfold settled in *; rewrite resolveCandidates_cons.
  - rewrite Hfetch, Hthrow. by eexists.
  - destruct (fetchEntityStatementChain other verify); [by eexists|].
    destruct (resolveCandidate now other _); eauto.
Qed.

(** A loop that throws does so on one of its candidates: its statement
    chain could not be fetched, or the body threw. *)
Lemma resolveCandidates_thrown verify now candidates trustChains t error :
  settled (resolveCandidates verify now candidates trustChains) t = inl error →
  ∃ candidate, candidate ∈ candidates ∧
    (fetchEntityStatementChain candidate verify = inl error
     ∨ ∃ statements,
         fetchEntityStatementChain candidate verify = inr statements
         ∧ resolveCandidate now candidate statements = Throw error).
Proof.
  revert trustChains t.
  induction candidates as [|candidate rest IH]; intros trustChains t Hres.
  - discriminate.
  - unfold settled in *. rewrite resolveCandidates_cons in Hres.
    destruct (fetchEntityStatementChain candidate verify) as [rejected|statements] eqn:Hfetch.
    { cbn in Hres. simplify_eq. exists candidate. split; [by left|]. by left. }
    destruct (resolveCandidate _ _ _) as [|trustChain|error'] eqn:Hstep.
    + apply IH in Hres as (c & ? & ?). exists c. split; [by right|done].
    + apply IH in Hres as (c & ? & ?). exists c. split; [by right|done].
    + cbn in Hres. simplify_eq. exists candidate. split; [by left|]. right. eauto.
Qed.

Lemma at_length_m1_last {A : Type} (array : list A) :
  at_length_m1 array = last array.
Proof.
  destruct array as [|x rest]; [done|].
  unfold at_length_m1. rewrite last_lookup. f_equal. cbn. lia.
Qed.

Lemma at_length_m1_None {A : Type} (array : list A) :
  at_length_m1 array = None ↔ array = [].
Proof. rewrite at_length_m1_last. apply last_None. Qed.

(** The body throws only when the configuration chain is empty or the
    merger throws. *)
Lemma resolveCandidate_Throw_cases now candidate statements error :
  resolveCandidate now candidate statements = Throw error →
  (candidate = []
   ∧ error = TypeError "Cannot read properties of undefined (reading 'metadata')")
  ∨ ∃ subject superior, mergeMetadata subject superior = inl error.
Proof.
  unfold resolveCandidate. intros Hthrow.
  destruct candidate as [|leaf others].
  - left. split; [done|]. cbn in Hthrow. repeat case_match; by simplify_eq.
  - destruct (at_length_m1 (leaf :: others)) as [trustAnchor|] eqn:Hlast.
    + cbn in Hthrow. repeat case_match; simplify_eq; right; eauto.
    + by apply at_length_m1_None in Hlast.
Qed.

(** With a merger that returns, the body throws only on an empty
    configuration chain, and then the [TypeError]. *)
Lemma resolveCandidate_Throw_inv now candidate statements error :
  MergerReturns →
  resolveCandidate now candidate statements = Throw error →
  candidate = []
  ∧ error = TypeError "Cannot read properties of undefined (reading 'metadata')".
Proof.
  intros Hmerger Hthrow.
  apply resolveCandidate_Throw_cases in Hthrow as [?|(subject & superior & Hmerge)]; [done|].
  destruct (Hmerger subject superior) as [merged ?]. congruence.
Qed.

(** The check for a missing trust anchor configuration never fires: an
    empty configuration chain has no leaf either, and reading the leaf's
    metadata throws first. *)
Lemma resolveCandidate_never_OpenIdFederationError now candidate statements stage message :
  MergerReturns →
  resolveCandidate now candidate statements ≠ Throw (OpenIdFederationError stage message).
Proof.
  intros Hmerger Hthrow.
  by apply (resolveCandidate_Throw_inv _ _ _ _ Hmerger) in Hthrow as [_ ?].
Qed.

Lemma resolveCandidate_no_statements now candidate :
  resolveCandidate now candidate [] = Continue.
Proof. reflexivity. Qed.

Lemma slice_0_m1_snoc {A : Type} (init : list A) (final : A) :
  slice_0_m1 (init ++ [final]) = init.
Proof.
  unfold slice_0_m1. rewrite length_app. cbn.
  replace (length init + 1 - 1)%nat with (length init) by lia.
  by rewrite take_app_length.
Qed.

(** The body on a chain of two or more statements. *)
Lemma resolveCandidate_general now candidate init final :
  init ≠ [] →
  resolveCandidate now candidate (init ++ [final]) =
  if existsb (λ statement, EntityStatementClaims.exp statement <? now) (init ++ [final])
  then Continue
  else match combineMetadataPolicies init with
       | inl error => Continue
       | inr mergedPolicy =>
           match candidate !! 0%nat with
           | None => Throw (TypeError "Cannot read properties of undefined (reading 'metadata')")
           | Some leaf =>
               match mergeMetadata
                       (default emptyObject (EntityConfigurationClaims.metadata leaf))
                       (default emptyObject (init !! 0%nat ≫= EntityStatementClaims.metadata))
               with
               | inl error => Throw error
               | inr mergedLeafMetadata =>
                   match applyMetadataPolicyToMetadata mergedLeafMetadata mergedPolicy with
                   | inl error => Continue
                   | inr resolved =>
                       match at_length_m1 candidate with
                       | None => Throw (OpenIdFederationError Validation
                                          "No trust anchor entity configuration found")
                       | Some trustAnchor =>
                           Push {| valid := true;
                                   chain := init ++ [final];
                                   trustAnchorEntityConfiguration := trustAnchor;
                                   rawLeafEntityConfiguration := leaf;
                                   resolvedLeafMetadata := Some resolved |}
                       end
                   end
               end
           end
       end.
Proof.
  intros Hinit. unfold resolveCandidate.
  rewrite slice_0_m1_snoc.
  assert (Hlen : (2 ≤ length (init ++ [final]))%nat).
  { rewrite length_app. destruct init; [done|]. cbn. lia. }
  rewrite bool_decide_eq_false_2 by lia.
  destruct (existsb _ _); [done|].
  rewrite bool_decide_eq_false_2 by lia.
  unfold tryCatch.
  destruct (combineMetadataPolicies init) as [error|mergedPolicy].
  { by repeat case_match. }
  destruct (candidate !! 0%nat) as [leaf|]; [|done].
  destruct (mergeMetadata _ _) as [error|mergedLeafMetadata]; [done|].
  destruct (applyMetadataPolicyToMetadata _ _) as [error|resolved]; [|done].
  by repeat case_match.
Qed.

(** Every per-candidate failure makes the body continue. *)
Lemma resolveCandidate_failure verify now candidate :
  PerCandidateFailure verify now candidate →
  ∃ statements,
    fetchEntityStatementChain candidate verify = inr statements
    ∧ resolveCandidate now candidate statements = Continue.
Proof.
  intros [Hnone
         |statements statement Hfetch Hin Hlt
         |statements error Hfetch Hlen Hcombine
         |statements leaf mergedPolicy merged error Hfetch Hlen Hleaf Hcombine Hmerge Happly].
  - exists []. split; [done|]. apply resolveCandidate_no_statements.
  - exists statements. split; [done|].
    apply list_elem_of_lookup in Hin as [i Hi].
    apply resolveCandidate_expired. by eapply existsb_expired.
  - exists statements. split; [done|]. clear Hfetch.
    destruct statements as [|first rest _] using rev_ind; [cbn in Hlen; lia|].
    rewrite slice_0_m1_snoc in Hcombine.
    rewrite resolveCandidate_general.
    + rewrite Hcombine. by destruct (existsb _ _).
    + intros ->. cbn in Hlen. lia.
  - exists statements. split; [done|]. clear Hfetch.
    destruct statements as [|first rest _] using rev_ind; [cbn in Hlen; lia|].
    rewrite slice_0_m1_snoc in Hcombine, Hmerge.
    rewrite resolveCandidate_general.
    + rewrite Hcombine, Hleaf, Hmerge, Happly. by destruct (existsb _ _).
    + intros ->. cbn in Hlen. lia.
Qed.

End CandidateFacts.

(** ** The degenerate chain *)

(** C2, amended: for a candidate whose configuration chain starts with the
    subject's configuration and whose verified statement chain is a single
    statement that has not expired at the instant read at the start of the
    call, the loop pushes a trust chain whose resolved metadata is the
    subject's raw metadata and whose trust anchor configuration is the
    subject's own configuration, and a call that returns has it in its
    result. *)
Theorem degenerate_chain_identity `{Collaborators}
    (clock : Clock) (options : Options) (t : nat)
    (pre post : list EntityConfigurationChain)
    (leaf : EntityConfigurationClaims.t) (others : EntityConfigurationChain)
    (statement : EntityStatementClaims.t) :
  fetchEntityConfigurationChains (entityId options) (trustAnchorEntityIds options)
    (verifyJwtCallback options) = inr (pre ++ (leaf :: others) :: post) →
  fetchEntityStatementChain (leaf :: others) (verifyJwtCallback options)
    = inr [statement] →
  clock t ≤ EntityStatementClaims.exp statement →
  let emitted :=
    {| valid := true;
       chain := [statement];
       rawLeafEntityConfiguration := leaf;
       resolvedLeafMetadata := EntityConfigurationClaims.metadata leaf;
       trustAnchorEntityConfiguration := leaf |} in
  (∀ trustChains t',
     resolveCandidates (verifyJwtCallback options) (clock t)
       ((leaf :: others) :: post) trustChains t' =
     resolveCandidates (verifyJwtCallback options) (clock t)
       post (trustChains ++ [emitted]) (S t'))
  ∧ (∀ result,
       settled (resolveTrustChains clock options) t = inr result →
       emitted ∈ result).
Proof.
  intros Hchains Hstatements Hexp emitted.
  assert (Hstep : resolveCandidate (clock t) (leaf :: others) [statement] = Push emitted).
  { unfold resolveCandidate. cbn.
    destruct (Z.ltb_spec (EntityStatementClaims.exp statement) (clock t)); [lia|done]. }
  split.
  - intros trustChains t'.
    by rewrite (resolveCandidates_fetched _ _ _ _ _ _ _ Hstatements), Hstep.
  - intros result Hres.
    rewrite (settled_resolveTrustChains _ _ _ _ Hchains),
      settled_resolveCandidates_app in Hres.
    destruct (settled (resolveCandidates _ _ pre []) t) as [|trustChains]; [done|].
    unfold settled in Hres.
    rewrite (resolveCandidates_fetched _ _ _ _ _ _ _ Hstatements), Hstep in Hres.
    apply resolveCandidates_extends in Hres as [more ->].
    rewrite !elem_of_app, list_elem_of_singleton. auto.
Qed.

(** ** Recovery from per-candidate failures *)

(** Candidates without a verifiable path leave the trust chains as they
    are. *)
Lemma resolveCandidates_no_paths `{Collaborators} verify now candidates trustChains t :
  Forall (λ candidate, fetchEntityStatementChain candidate verify = inr []) candidates →
  settled (resolveCandidates verify now candidates trustChains) t = inr trustChains.
Proof.
  intros Hnone. revert t.
  induction Hnone as [|candidate rest Hc _ IH]; intros t; [done|].
  unfold settled in *.
  rewrite (resolveCandidates_fetched _ _ _ _ _ _ _ Hc), resolveCandidate_no_statements.
  apply IH.
Qed.

(** C3, amended: when discovery returns, a candidate with a per-candidate
    failure (no verifiable path, an expired statement, a failed combination
    or a failed application, whatever the error) is left out and the call
    goes on with the other candidates; a call in which no candidate has a
    verifiable path returns the empty list; and when verification returns
    for every candidate and the merger returns, a call throws only when
    discovery returned a configuration chain with no trust anchor
    configuration. *)
Theorem per_candidate_failures_are_recovered `{Collaborators}
    (clock : Clock) (options : Options) (t : nat)
    (candidates : list EntityConfigurationChain) :
  fetchEntityConfigurationChains (entityId options) (trustAnchorEntityIds options)
    (verifyJwtCallback options) = inr candidates →
  let verify := verifyJwtCallback options in
  (∀ pre candidate post,
     candidates = pre ++ candidate :: post →
     PerCandidateFailure verify (clock t) candidate →
     settled (resolveTrustChains clock options) t =
     settled (resolveCandidates verify (clock t) (pre ++ post) []) t)
  ∧ (Forall (λ candidate, fetchEntityStatementChain candidate verify = inr []) candidates →
     settled (resolveTrustChains clock options) t = inr [])
  ∧ (VerificationReturns verify candidates →
     MergerReturns →
     ∀ error,
       settled (resolveTrustChains clock options) t = inl error →
       ∃ candidate, candidate ∈ candidates ∧ at_length_m1 candidate = None).
Proof.
  intros Hdiscovery verify. split; [|split].
  - intros pre candidate post Hchains Hfail.
    rewrite (settled_resolveTrustChains _ _ _ _ Hdiscovery). fold verify. rewrite Hchains.
    apply resolveCandidate_failure in Hfail as (statements & Hfetch & Hskip).
    by eapply settled_skip.
  - intros Hnone. rewrite (settled_resolveTrustChains _ _ _ _ Hdiscovery).
    by apply resolveCandidates_no_paths.
  - intros Hverification Hmerger error Hthrow.
    rewrite (settled_resolveTrustChains _ _ _ _ Hdiscovery) in Hthrow.
    apply resolveCandidates_thrown
      in Hthrow as (candidate & Hin & [Hrejected|(statements & Hfetch & Hstep)]).
    + unfold VerificationReturns in Hverification.
      rewrite Forall_forall in Hverification.
      destruct (Hverification candidate Hin) as [statements Hfetch].
      fold verify in Hrejected. congruence.
    + exists candidate. split; [done|].
      by apply (resolveCandidate_Throw_inv _ _ _ _ Hmerger) in Hstep as [-> _].
Qed.

(** ** Policy combination *)

(** C4, amended: on a statement chain of two or more statements of which
    none is expired, the result of the combiner on the statements without
    the final one decides the step: when that combination throws, whatever
    the error, the body continues and the loop goes on to the next candidate
    with the trust chains unchanged; when it returns, the combined policy is
    the one handed to the applicator.  A chain with an expired statement is
    left out before the combiner is consulted.  The combiner is consulted on
    nothing but those statements: a combiner that agrees there gives the
    same step. *)
Theorem combiner_runs_on_all_but_final (K : Collaborators)
    (combine' : list EntityStatementClaims.t → Throws MetadataPolicy)
    (verify : VerifyCallback) (now : Instant)
    (candidate : EntityConfigurationChain) (rest : list EntityConfigurationChain)
    (init : list EntityStatementClaims.t) (final : EntityStatementClaims.t) :
  @fetchEntityStatementChain K candidate verify = inr (init ++ [final]) →
  init ≠ [] →
  @resolveCandidate K now candidate (init ++ [final]) =
    (if existsb (λ statement, EntityStatementClaims.exp statement <? now) (init ++ [final])
     then Continue
     else
       match @combineMetadataPolicies K init with
       | inl error => Continue
       | inr mergedPolicy =>
           match candidate !! 0%nat with
           | None => Throw (TypeError "Cannot read properties of undefined (reading 'metadata')")
           | Some leaf =>
               match @mergeMetadata K
                       (default emptyObject (EntityConfigurationClaims.metadata leaf))
                       (default emptyObject (init !! 0%nat ≫= EntityStatementClaims.metadata))
               with
               | inl error => Throw error
               | inr mergedLeafMetadata =>
                   match @applyMetadataPolicyToMetadata K mergedLeafMetadata mergedPolicy with
                   | inl error => Continue
                   | inr resolved =>
                       match at_length_m1 candidate with
                       | None => Throw (OpenIdFederationError Validation
                                          "No trust anchor entity configuration found")
                       | Some trustAnchor =>
                           Push {| valid := true;
                                   chain := init ++ [final];
                                   trustAnchorEntityConfiguration := trustAnchor;
                                   rawLeafEntityConfiguration := leaf;
                                   resolvedLeafMetadata := Some resolved |}
                       end
                   end
               end
           end
       end)
  ∧ (@combineMetadataPolicies K init = combine' init →
     @resolveCandidate K now candidate (init ++ [final]) =
     @resolveCandidate (withCombiner K combine') now candidate (init ++ [final]))
  ∧ (∀ error trustChains t,
       @combineMetadataPolicies K init = inl error →
       @resolveCandidates K verify now (candidate :: rest) trustChains t =
       @resolveCandidates K verify now rest trustChains (S t)).
Proof.
  intros Hstatements Hinit. split; [|split].
  - by apply resolveCandidate_general.
  - intros Hagree. rewrite !resolveCandidate_general by done.
    cbn. by rewrite Hagree.
  - intros error trustChains t Hcombine.
    rewrite (resolveCandidates_fetched _ _ _ _ _ _ _ Hstatements),
      resolveCandidate_general by done.
    rewrite Hcombine. by destruct (existsb _ _).
Qed.

(** C5, amended: with the combiner modelled from the spec, when a statement
    other than the final one declares in [metadata_policy_crit] an operator
    the combiner does not recognize, combination throws an error that is a
    critical-policy error and not an operator-merge error, and the loop goes
    on to the next candidate with the trust chains unchanged. *)
Theorem critical_policy_rejection `{Collaborators}
    (knownOperators : list string)
    (foldPolicies : list EntityStatementClaims.t → Throws MetadataPolicy)
    (verify : VerifyCallback) (now : Instant)
    (candidate : EntityConfigurationChain) (rest : list EntityConfigurationChain)
    (trustChains : list TrustChain) (t : nat)
    (init : list EntityStatementClaims.t) (final statement : EntityStatementClaims.t)
    (declared : list string) (operator : string) :
  (∀ statements, combineMetadataPolicies statements =
                 specCombineMetadataPolicies knownOperators foldPolicies statements) →
  fetchEntityStatementChain candidate verify = inr (init ++ [final]) →
  statement ∈ init →
  EntityStatementClaims.metadata_policy_crit statement = Some declared →
  operator ∈ declared →
  operator ∉ knownOperators →
  ∃ error,
    combineMetadataPolicies init = inl error
    ∧ isMetadataPolicyCritError error = true
    ∧ instanceofPolicyOperatorMergeError error = false
    ∧ resolveCandidates verify now (candidate :: rest) trustChains t =
      resolveCandidates verify now rest trustChains (S t).
Proof.
  intros Hspec Hstatements Hin Hcrit Hop Hunknown.
  assert (Hdeclares : existsb (declaresUnknownCriticalOperator knownOperators) init = true).
  { apply existsb_exists. exists statement. split; [by apply list_elem_of_In|].
    unfold declaresUnknownCriticalOperator. rewrite Hcrit. cbn.
    apply existsb_exists. exists operator. split; [by apply list_elem_of_In|].
    by rewrite bool_decide_eq_false_2. }
  eexists. split; [|split; [|split]].
  - rewrite Hspec. unfold specCombineMetadataPolicies. by rewrite Hdeclares.
  - done.
  - done.
  - assert (Hinit : init ≠ []) by (intros ->; by apply not_elem_of_nil in Hin).
    rewrite (resolveCandidates_fetched _ _ _ _ _ _ _ Hstatements),
      resolveCandidate_general by done.
    rewrite Hspec. unfold specCombineMetadataPolicies. rewrite Hdeclares.
    by destruct (existsb (λ s, EntityStatementClaims.exp s <? now) _).
Qed.

(** ** The missing trust anchor configuration *)

(** C6, amended: a candidate whose configuration chain has no trust anchor
    configuration makes the call throw when its statement chain is
    non-empty, holds no expired statement and either is a single statement
    or combines successfully; in every other case the candidate is left
    out silently and the call goes on with the other candidates. *)
Theorem missing_trust_anchor_configuration `{Collaborators}
    (clock : Clock) (options : Options) (t : nat)
    (pre post : list EntityConfigurationChain) (candidate : EntityConfigurationChain)
    (statements : EntityStatementChain) :
  fetchEntityConfigurationChains (entityId options) (trustAnchorEntityIds options)
    (verifyJwtCallback options) = inr (pre ++ candidate :: post) →
  at_length_m1 candidate = None →
  fetchEntityStatementChain candidate (verifyJwtCallback options) = inr statements →
  let reachesLeaf :=
    statements ≠ []
    ∧ (∀ statement, statement ∈ statements →
         clock t ≤ EntityStatementClaims.exp statement)
    ∧ (length statements = 1%nat
       ∨ ∃ mergedPolicy,
           combineMetadataPolicies (slice_0_m1 statements) = inr mergedPolicy) in
  (reachesLeaf → ∃ error, settled (resolveTrustChains clock options) t = inl error)
  ∧ (¬ reachesLeaf →
     settled (resolveTrustChains clock options) t =
     settled (resolveCandidates (verifyJwtCallback options) (clock t) (pre ++ post) []) t).
Proof.
  intros Hchains Hnone Hfetch reachesLeaf.
  apply at_length_m1_None in Hnone as ->.
  assert (Hunexpired : ∀ l : EntityStatementChain,
            existsb (λ statement, EntityStatementClaims.exp statement <? clock t) l = false ↔
            ∀ statement, statement ∈ l → clock t ≤ EntityStatementClaims.exp statement).
  { intros l. split.
    - intros Hall statement Hin.
      destruct (Z.ltb_spec (EntityStatementClaims.exp statement) (clock t)) as [Hlt|]; [|done].
      apply list_elem_of_lookup in Hin as [i Hi].
      by rewrite (existsb_expired _ _ _ _ Hi Hlt) in Hall.
    - intros Hall. apply not_true_is_false. intros Hex.
      apply existsb_exists in Hex as (statement & Hin & Hlt).
      apply list_elem_of_In, Hall in Hin. apply Z.ltb_lt in Hlt. lia. }
  assert (Hcases :
    (reachesLeaf ∧ ∃ error, resolveCandidate (clock t) [] statements = Throw error)
    ∨ (¬ reachesLeaf ∧ resolveCandidate (clock t) [] statements = Continue)).
  { subst reachesLeaf. clear Hfetch. generalize statements. clear statements.
    intros statements.
    destruct statements as [|final init _] using rev_ind.
    { right. split; [|done]. by intros [? _]. }
    destruct (existsb (λ statement, EntityStatementClaims.exp statement <? clock t)
                (init ++ [final])) eqn:Hexp.
    { right. split; [|by apply resolveCandidate_expired].
      intros (_ & Hall & _). apply Hunexpired in Hall. congruence. }
    destruct init as [|superior middle].
    { left. split; [|by unfold resolveCandidate; cbn in *; rewrite Hexp; eexists].
      split; [done|]. split; [by apply Hunexpired|by left]. }
    rewrite slice_0_m1_snoc, resolveCandidate_general, Hexp by done.
    destruct (combineMetadataPolicies (superior :: middle)) as [error|mergedPolicy] eqn:Hcombine.
    - right. split; [|done]. intros (_ & _ & [Hlen|[mergedPolicy ?]]); [|done].
      rewrite length_app in Hlen. cbn in Hlen. lia.
    - left. split; [|by eexists]. split; [by destruct middle|].
      split; [by apply Hunexpired|]. right. by eexists. }
  split.
  - intros Hreach. destruct Hcases as [[_ [error Hthrow]]|[Hnot _]]; [|done].
    rewrite (settled_resolveTrustChains _ _ _ _ Hchains).
    eapply resolveCandidates_throws; [|done..].
    rewrite elem_of_app, elem_of_cons. auto.
  - intros Hnot. destruct Hcases as [[Hreach _]|[_ Hskip]]; [done|].
    rewrite (settled_resolveTrustChains _ _ _ _ Hchains). by eapply settled_skip.
Qed.

(** ** Merging before application *)

(** C7: on the general path (two or more statements, none expired, the
    combination succeeded) the merger is called on the subject's own
    metadata and the metadata of the first statement, where an absent
    metadata on either side counts as the empty object, and the applicator
    receives what the merger returns; the body pushes the trust chain with
    the applicator's result, or continues when the applicator throws. *)
Theorem pre_policy_metadata_is_merge `{Collaborators} (now : Instant)
    (leaf trustAnchor : EntityConfigurationClaims.t) (others : EntityConfigurationChain)
    (superior final : EntityStatementClaims.t) (middle : list EntityStatementClaims.t)
    (mergedPolicy : MetadataPolicy) :
  at_length_m1 (leaf :: others) = Some trustAnchor →
  (∀ statement, statement ∈ superior :: middle ++ [final] →
     now ≤ EntityStatementClaims.exp statement) →
  combineMetadataPolicies (superior :: middle) = inr mergedPolicy →
  let subjectSide :=
    match EntityConfigurationClaims.metadata leaf with
    | Some metadata => metadata
    | None => emptyObject
    end in
  let superiorSide :=
    match EntityStatementClaims.metadata superior with
    | Some metadata => metadata
    | None => emptyObject
    end in
  resolveCandidate now (leaf :: others) (superior :: middle ++ [final]) =
  match mergeMetadata subjectSide superiorSide with
  | inl error => Throw error
  | inr mergedLeafMetadata =>
      match applyMetadataPolicyToMetadata mergedLeafMetadata mergedPolicy with
      | inl error => Continue
      | inr resolved =>
          Push {| valid := true;
                  chain := superior :: middle ++ [final];
                  rawLeafEntityConfiguration := leaf;
                  resolvedLeafMetadata := Some resolved;
                  trustAnchorEntityConfiguration := trustAnchor |}
      end
  end.
Proof.
  intros Hanchor Hunexpired Hcombine subjectSide superiorSide.
  rewrite app_comm_cons, resolveCandidate_general by done.
  rewrite Hcombine, Hanchor.
  replace (existsb _ _) with false; [done|].
  symmetry. apply not_true_is_false. intros Hex.
  apply existsb_exists in Hex as (statement & Hin & Hlt).
  apply list_elem_of_In in Hin. rewrite <- app_comm_cons in Hin.
  apply Hunexpired in Hin. apply Z.ltb_lt in Hlt. lia.
Qed.

(** ** Key identifiers of a validated statement *)

(** [indexOf] finds the first position of an element that occurs, and
    answers [-1] for one that does not. *)
Lemma indexOf_spec (array : list (option string)) (searchElement : option string) :
  ((searchElement ∉ array) ∧ indexOf array searchElement = -1)
  ∨ (∃ k : nat,
        indexOf array searchElement = Z.of_nat k
        ∧ array !! k = Some searchElement
        ∧ ∀ j, (j < k)%nat → array !! j ≠ Some searchElement).
Proof.
  induction array as [|element rest IH]; cbn.
  - left. split; [apply not_elem_of_nil|done].
  - case_bool_decide as Heq.
    + right. exists 0%nat. subst. split; [done|]. split; [done|]. lia.
    + destruct IH as [[Hnot ->]|(k & -> & Hk & Hfirst)].
      * left. split; [|done]. rewrite elem_of_cons. intros [?|?]; by simplify_eq.
      * right. exists (S k).
        destruct (Z.ltb_spec (Z.of_nat k) 0); [lia|].
        split; [lia|]. split; [done|].
        intros [|j] Hj; cbn; [congruence|]. apply Hfirst. lia.
Qed.

Lemma someFrom_false {A : Type} (callback : A → Z → bool) (i : Z) (array : list A) :
  someFrom callback i array = false ↔
  ∀ (j : nat) element, array !! j = Some element → callback element (i + Z.of_nat j) = false.
Proof.
  revert i. induction array as [|first rest IH]; intros i; cbn.
  - split; [|done]. by intros _ j element.
  - rewrite orb_false_iff, IH. split.
    + intros [Hfirst Hrest] [|j] element Hj; cbn in Hj.
      * simplify_eq. by rewrite Z.add_0_r.
      * replace (i + Z.of_nat (S j)) with (i + 1 + Z.of_nat j) by lia. by apply Hrest.
    + intros Hall. split.
      * specialize (Hall 0%nat first eq_refl). by rewrite Z.add_0_r in Hall.
      * intros j element Hj.
        replace (i + 1 + Z.of_nat j) with (i + Z.of_nat (S j)) by lia. by apply Hall.
Qed.

(** The duplicate test of the refinement finds nothing exactly on key sets
    without a repeated identifier. *)
Lemma no_duplicate_found_iff_NoDup (keyIds : list (option string)) :
  some (λ key i, negb (indexOf keyIds key =? i)) keyIds = false ↔ NoDup keyIds.
Proof.
  unfold some. rewrite someFrom_false, NoDup_alt. split.
  - intros Hfirst i j key Hi Hj.
    pose proof (Hfirst i key Hi) as Hfi. pose proof (Hfirst j key Hj) as Hfj.
    apply negb_false_iff, Z.eqb_eq in Hfi, Hfj. lia.
  - intros Hnodup j key Hj. apply negb_false_iff, Z.eqb_eq.
    destruct (indexOf_spec keyIds key) as [[Hnot _]|(k & -> & Hk & _)].
    + exfalso. apply Hnot. by eapply list_elem_of_lookup_2.
    + rewrite (Hnodup k j key Hk Hj). lia.
Qed.

Lemma superRefine_accepts_iff_NoDup (data : EntityStatementClaims.t) :
  superRefine data = [] ↔ NoDup (map kid (keys (EntityStatementClaims.jwks data))).
Proof.
  rewrite <- no_duplicate_found_iff_NoDup. unfold superRefine.
  destruct (some _ _); split; congruence.
Qed.

Lemma superRefine_rejects (data : EntityStatementClaims.t) :
  ¬ NoDup (map kid (keys (EntityStatementClaims.jwks data))) →
  superRefine data = [duplicateKeyIdsIssue].
Proof.
  intros Hdup. unfold superRefine.
  destruct (some _ _) eqn:Hsome; [done|].
  by apply no_duplicate_found_iff_NoDup in Hsome.
Qed.

Lemma repeated_kid_not_NoDup (keySet : list JsonWebKey) (i j : nat) (key1 key2 : JsonWebKey) :
  i ≠ j →
  keySet !! i = Some key1 →
  keySet !! j = Some key2 →
  kid key1 = kid key2 →
  ¬ NoDup (map kid keySet).
Proof.
  intros Hij Hi Hj Hkid Hnodup. apply Hij.
  eapply NoDup_alt; [done| |].
  - by rewrite list_lookup_fmap, Hi.
  - rewrite list_lookup_fmap, Hj. cbn. by rewrite Hkid.
Qed.

(** C9: the key identifiers of the key set of every claims object the
    schema accepts are pairwise distinct, and an input whose key set holds
    two keys with the same identifier fails validation. *)
Theorem accepted_key_ids_are_distinct {Input : Type}
    (objectSchema : Input → ObjectParse) (input : Input) :
  (∀ data (i j : nat) key1 key2,
     entityStatementClaimsSchema objectSchema input = ParseSuccess data →
     i ≠ j →
     keys (EntityStatementClaims.jwks data) !! i = Some key1 →
     keys (EntityStatementClaims.jwks data) !! j = Some key2 →
     kid key1 ≠ kid key2)
  ∧ (∀ data (i j : nat) key1 key2,
       objectSchema input = Valid data →
       i ≠ j →
       keys (EntityStatementClaims.jwks data) !! i = Some key1 →
       keys (EntityStatementClaims.jwks data) !! j = Some key2 →
       kid key1 = kid key2 →
       ∃ issues, issues ≠ [] ∧
         entityStatementClaimsSchema objectSchema input = ParseError issues).
Proof.
  split.
  - intros data i j key1 key2 Haccept Hij Hi Hj Hkid.
    unfold entityStatementClaimsSchema in Haccept.
    destruct (objectSchema input) as [parsed| |]; [|done..].
    destruct (superRefine parsed) eqn:Hrefine; [|done].
    simplify_eq. apply superRefine_accepts_iff_NoDup in Hrefine.
    by eapply repeated_kid_not_NoDup.
  - intros data i j key1 key2 Hobject Hij Hi Hj Hkid.
    exists [duplicateKeyIdsIssue]. split; [done|].
    unfold entityStatementClaimsSchema. rewrite Hobject.
    rewrite superRefine_rejects; [done|].
    by eapply repeated_kid_not_NoDup.
Qed.

(** C10: a key set in which two keys both lack a key identifier is
    rejected by the duplicate test of the refinement, the two absent
    identifiers comparing equal. *)
Theorem keys_without_id_are_rejected {Input : Type}
    (objectSchema : Input → ObjectParse) (input : Input)
    (data : EntityStatementClaims.t) (i j : nat) (key1 key2 : JsonWebKey) :
  objectSchema input = Valid data →
  i ≠ j →
  keys (EntityStatementClaims.jwks data) !! i = Some key1 →
  keys (EntityStatementClaims.jwks data) !! j = Some key2 →
  kid key1 = None →
  kid key2 = None →
  superRefine data = [duplicateKeyIdsIssue]
  ∧ entityStatementClaimsSchema objectSchema input = ParseError [duplicateKeyIdsIssue].
Proof.
  intros Hobject Hij Hi Hj Hnone1 Hnone2.
  assert (Hrefine : superRefine data = [duplicateKeyIdsIssue]).
  { apply superRefine_rejects. eapply repeated_kid_not_NoDup; [done..|congruence]. }
  split; [done|].
  unfold entityStatementClaimsSchema. by rewrite Hobject, Hrefine.
Qed.

(** ** The properties on the example federation *)

(** The expired path through the intermediate is left out; the call is the
    loop on the direct candidate alone. *)
Lemma expired_statement_excludes_candidate_witness :
  @settled _ (@resolveTrustChains (tableCollaborators federationTable)
                driftingClock exampleOptions) 0 =
  @settled _ (@resolveCandidates (tableCollaborators federationTable)
                acceptAll 1000 [[leafConfiguration]] []) 0.
Proof.
  apply (@expired_statement_excludes_candidate (tableCollaborators federationTable)
           driftingClock exampleOptions 0%nat [[leafConfiguration]] []
           [leafConfiguration; intermediateConfiguration; anchorConfiguration]
           [expiredStatement; intermediateStatement; anchorStatement]
           0%nat expiredStatement);
    reflexivity.
Defined.

(** A clock that reads 1000 throughout and one that drifts back to 10
    after the first suspension give the same result. *)
Lemma single_snapshot_instant_witness :
  @settled _ (@resolveTrustChains (tableCollaborators federationTable)
                driftingClock exampleOptions) 0 =
  @settled _ (@resolveTrustChains (tableCollaborators federationTable)
                (λ _, 1000) exampleOptions) 0.
Proof.
  apply (@single_snapshot_instant (tableCollaborators federationTable)
           driftingClock (λ _, 1000) exampleOptions 0%nat).
  reflexivity.
Defined.

(** The only candidate has a statement chain of exactly one element, which
    is expired, and the call returns no trust chain. *)
Lemma single_expired_statement_emits_nothing :
  @fetchEntityConfigurationChains (tableCollaborators expiredDirectTable)
    (entityId exampleOptions) (trustAnchorEntityIds exampleOptions) acceptAll
    = inr [[leafConfiguration]]
  ∧ @fetchEntityStatementChain (tableCollaborators expiredDirectTable)
      [leafConfiguration] acceptAll = inr [expiredDirectStatement]
  ∧ @settled _ (@resolveTrustChains (tableCollaborators expiredDirectTable)
                  driftingClock exampleOptions) 0 = inr [].
Proof. split; [|split]; reflexivity. Qed.

Lemma degenerate_chain_identity_witness :
  @settled _ (@resolveTrustChains (tableCollaborators federationTable)
                driftingClock exampleOptions) 0 = inr [directTrustChain]
  ∧ directTrustChain ∈ [directTrustChain].
Proof.
  split; [reflexivity|].
  apply (proj2 (@degenerate_chain_identity (tableCollaborators federationTable)
                  driftingClock exampleOptions 0%nat []
                  [[leafConfiguration; intermediateConfiguration; anchorConfiguration]]
                  leafConfiguration [] directStatement
                  eq_refl eq_refl ltac:(discriminate))
           [directTrustChain]).
  reflexivity.
Defined.

(** No configuration chain lacks its last element, and yet the call is
    rejected: once because the merger throws, once because the promise of
    the statement chain is rejected. *)
Lemma collaborator_failures_abort_the_call :
  Forall (λ candidate, is_Some (at_length_m1 candidate))
    [[leafConfiguration; anchorConfiguration]]
  ∧ @fetchEntityConfigurationChains (throwingMerger criticalAnchorTable)
      (entityId exampleOptions) (trustAnchorEntityIds exampleOptions) acceptAll
      = inr [[leafConfiguration; anchorConfiguration]]
  ∧ @settled _ (@resolveTrustChains (throwingMerger criticalAnchorTable)
                  driftingClock exampleOptions) 0
      = inl (UnexpectedError "merge failed")
  ∧ @fetchEntityConfigurationChains (rejectingVerification criticalAnchorTable)
      (entityId exampleOptions) (trustAnchorEntityIds exampleOptions) acceptAll
      = inr [[leafConfiguration; anchorConfiguration]]
  ∧ @settled _ (@resolveTrustChains (rejectingVerification criticalAnchorTable)
                  driftingClock exampleOptions) 0
      = inl (UnexpectedError "fetch failed").
Proof.
  split; [|repeat split].
  apply Forall_singleton. by eexists.
Qed.

Lemma per_candidate_failures_are_recovered_witness :
  @settled _ (@resolveTrustChains (tableCollaborators federationTable)
                driftingClock exampleOptions) 0 =
  @settled _ (@resolveCandidates (tableCollaborators federationTable)
                acceptAll 1000 [[leafConfiguration]] []) 0.
Proof.
  apply (proj1 (@per_candidate_failures_are_recovered (tableCollaborators federationTable)
                  driftingClock exampleOptions 0%nat
                  [[leafConfiguration];
                   [leafConfiguration; intermediateConfiguration; anchorConfiguration]]
                  eq_refl)
           [[leafConfiguration]]
           [leafConfiguration; intermediateConfiguration; anchorConfiguration] []).
  - reflexivity.
  - apply (@TemporalInvalidity (tableCollaborators federationTable) acceptAll 1000
             _ [expiredStatement; intermediateStatement; anchorStatement]
             expiredStatement).
    + reflexivity.
    + apply list_elem_of_here.
    + reflexivity.
Defined.

(** A chain of three statements whose first is expired: the combination of
    the statements without the final one would succeed, and yet the body
    continues, whatever the combiner. *)
Lemma expired_chain_skips_the_combiner :
  @fetchEntityStatementChain (tableCollaborators federationTable)
    [leafConfiguration; intermediateConfiguration; anchorConfiguration] acceptAll
    = inr [expiredStatement; intermediateStatement; anchorStatement]
  ∧ @combineMetadataPolicies (tableCollaborators federationTable)
      [expiredStatement; intermediateStatement] = inr []
  ∧ @resolveCandidate (tableCollaborators federationTable) 1000
      [leafConfiguration; intermediateConfiguration; anchorConfiguration]
      [expiredStatement; intermediateStatement; anchorStatement] = Continue
  ∧ ∀ combine',
      @resolveCandidate (withCombiner (tableCollaborators federationTable) combine') 1000
        [leafConfiguration; intermediateConfiguration; anchorConfiguration]
        [expiredStatement; intermediateStatement; anchorStatement] = Continue.
Proof. repeat split. Qed.

(** On the unexpired chain through the anchor the combined policy reaches
    the applicator and the trust chain is pushed. *)
Lemma combiner_runs_on_all_but_final_witness :
  @resolveCandidate (tableCollaborators criticalAnchorTable) 1000
    [leafConfiguration; anchorConfiguration]
    [superiorStatement; criticalAnchorStatement] = Push criticalAnchorTrustChain.
Proof.
  apply (proj1 (combiner_runs_on_all_but_final (tableCollaborators criticalAnchorTable)
                  (λ _, inr []) acceptAll 1000
                  [leafConfiguration; anchorConfiguration] []
                  [superiorStatement] criticalAnchorStatement
                  eq_refl ltac:(discriminate))).
Defined.

(** The anchor's terminal statement declares the critical operator
    [regexp], which is not among the operators the combiner knows; the
    candidate is resolved all the same. *)
Lemma critical_operator_on_final_statement_is_accepted :
  @fetchEntityStatementChain (tableCollaborators criticalAnchorTable)
    [leafConfiguration; anchorConfiguration] acceptAll
    = inr [superiorStatement; criticalAnchorStatement]
  ∧ declaresUnknownCriticalOperator standardOperators criticalAnchorStatement = true
  ∧ @settled _ (@resolveTrustChains (tableCollaborators criticalAnchorTable)
                  driftingClock exampleOptions) 0 = inr [criticalAnchorTrustChain].
Proof. split; [|split]; reflexivity. Qed.

Lemma critical_policy_rejection_witness :
  ∃ error,
    @combineMetadataPolicies (tableCollaborators criticalTable) [criticalStatement]
      = inl error
    ∧ isMetadataPolicyCritError error = true
    ∧ instanceofPolicyOperatorMergeError error = false
    ∧ @resolveCandidates (tableCollaborators criticalTable) acceptAll 1000
        [[leafConfiguration; anchorConfiguration]] [] 0%nat =
      @resolveCandidates (tableCollaborators criticalTable) acceptAll 1000 [] [] 1%nat.
Proof.
  apply (@critical_policy_rejection (tableCollaborators criticalTable)
           standardOperators concatPolicies acceptAll 1000
           [leafConfiguration; anchorConfiguration] [] [] 0%nat
           [criticalStatement] anchorStatement criticalStatement ["regexp"] "regexp").
  - reflexivity.
  - reflexivity.
  - apply list_elem_of_here.
  - reflexivity.
  - apply list_elem_of_here.
  - intros Hknown. apply list_elem_of_In in Hknown. cbn in Hknown.
    repeat (destruct Hknown as [Hknown|Hknown]; [discriminate Hknown|]).
    exact Hknown.
Defined.

(** Discovery returned an empty configuration chain without a verifiable
    path: the candidate is dropped and the call returns normally. *)
Lemma empty_chain_without_statements_is_dropped :
  @fetchEntityConfigurationChains (tableCollaborators emptyChainTable)
    (entityId exampleOptions) (trustAnchorEntityIds exampleOptions) acceptAll
    = inr [[]]
  ∧ at_length_m1 ([] : EntityConfigurationChain) = None
  ∧ @settled _ (@resolveTrustChains (tableCollaborators emptyChainTable)
                  driftingClock exampleOptions) 0 = inr [].
Proof. split; [|split]; reflexivity. Qed.

Lemma missing_trust_anchor_configuration_witness :
  ∃ error,
    @settled _ (@resolveTrustChains (tableCollaborators emptyChainWithStatementTable)
                  driftingClock exampleOptions) 0 = inl error.
Proof.
  apply (proj1 (@missing_trust_anchor_configuration
                  (tableCollaborators emptyChainWithStatementTable)
                  driftingClock exampleOptions 0%nat [] [] [] [anchorStatement]
                  eq_refl eq_refl eq_refl)).
  split; [discriminate|]. split.
  - intros statement Hin. apply list_elem_of_singleton in Hin. subst statement.
    discriminate.
  - left. reflexivity.
Defined.

Lemma pre_policy_metadata_is_merge_witness :
  @resolveCandidate (tableCollaborators criticalAnchorTable) 1000
    [leafConfiguration; anchorConfiguration]
    [superiorStatement; criticalAnchorStatement] =
  Push criticalAnchorTrustChain.
Proof.
  apply (@pre_policy_metadata_is_merge (tableCollaborators criticalAnchorTable) 1000
           leafConfiguration anchorConfiguration [anchorConfiguration]
           superiorStatement criticalAnchorStatement [] []).
  - reflexivity.
  - intros statement Hin.
    apply elem_of_cons in Hin as [->|Hin]; [discriminate|].
    apply list_elem_of_singleton in Hin. subst statement. discriminate.
  - reflexivity.
Defined.

Lemma accepted_key_ids_are_distinct_witness :
  kid (keyWithId "key-1") ≠ kid (keyWithId "key-2")
  ∧ ∃ issues, issues ≠ [] ∧
      entityStatementClaimsSchema acceptObject
        (claimsWithKeys [keyWithId "key-1"; keyWithId "key-1"]) = ParseError issues.
Proof.
  split.
  - apply (proj1 (accepted_key_ids_are_distinct acceptObject
                    (claimsWithKeys [keyWithId "key-1"; keyWithId "key-2"]))
             (claimsWithKeys [keyWithId "key-1"; keyWithId "key-2"])
             0%nat 1%nat (keyWithId "key-1") (keyWithId "key-2"));
      [reflexivity|discriminate|reflexivity|reflexivity].
  - apply (proj2 (accepted_key_ids_are_distinct acceptObject
                    (claimsWithKeys [keyWithId "key-1"; keyWithId "key-1"]))
             (claimsWithKeys [keyWithId "key-1"; keyWithId "key-1"])
             0%nat 1%nat (keyWithId "key-1") (keyWithId "key-1"));
      [reflexivity|discriminate|reflexivity|reflexivity|reflexivity].
Defined.

Lemma keys_without_id_are_rejected_witness :
  superRefine (claimsWithKeys [keyWithoutId; keyWithId "key-1"; keyWithoutId])
    = [duplicateKeyIdsIssue]
  ∧ entityStatementClaimsSchema acceptObject
      (claimsWithKeys [keyWithoutId; keyWithId "key-1"; keyWithoutId])
    = ParseError [duplicateKeyIdsIssue].
Proof.
  apply (keys_without_id_are_rejected acceptObject
           (claimsWithKeys [keyWithoutId; keyWithId "key-1"; keyWithoutId])
           (claimsWithKeys [keyWithoutId; keyWithId "key-1"; keyWithoutId])
           0%nat 2%nat keyWithoutId keyWithoutId);
    [reflexivity|discriminate|reflexivity|reflexivity|reflexivity|reflexivity].
Defined.

(** ** The loop as a whole *)

Section LoopFacts.
Context `{Collaborators}.


(** With a verification and a merger that return, and without an empty
    configuration chain, the loop returns, having pushed in order what the
    body pushes for each candidate. *)
Lemma resolveCandidates_flat_map verify now candidates trustChains t :
  Forall (λ candidate, candidate ≠ []) candidates →
  VerificationReturns verify candidates →
  MergerReturns →
  resolveCandidates verify now candidates trustChains t =
  (inr (trustChains ++
        flat_map (λ candidate,
                    match fetchEntityStatementChain candidate verify with
                    | inr statements =>
                        match resolveCandidate now candidate statements with
                        | Push trustChain => [trustChain]
                        | _ => []
                        end
                    | inl _ => []
                    end) candidates),
   (t + length candidates)%nat).
Proof.
  intros Hall Hverification Hmerger. revert trustChains t.
  induction Hall as [|candidate rest Hne _ IH]; intros trustChains t.
  - cbn. by rewrite app_nil_r, Nat.add_0_r.
  - apply Forall_cons in Hverification as [[statements Hfetch] Hrest].
    rewrite (resolveCandidates_fetched _ _ _ _ _ _ _ Hfetch).
    cbn [flat_map length]. rewrite Hfetch.
    destruct (resolveCandidate _ _ _) as [|trustChain|error] eqn:Hstep.
    + rewrite IH by done. f_equal. lia.
    + rewrite IH, <- app_assoc by done. f_equal. lia.
    + by apply (resolveCandidate_Throw_inv _ _ _ _ Hmerger) in Hstep as [? _].
Qed.

(** What holds of everything the body pushes holds of every trust chain
    the loop adds. *)
Lemma resolveCandidates_Forall (P : TrustChain → Prop)
    verify now candidates trustChains t result :
  (∀ candidate statements trustChain,
     candidate ∈ candidates →
     fetchEntityStatementChain candidate verify = inr statements →
     resolveCandidate now candidate statements = Push trustChain →
     P trustChain) →
  Forall P trustChains →
  settled (resolveCandidates verify now candidates trustChains) t = inr result →
  Forall P result.
Proof.
  revert trustChains t.
  induction candidates as [|candidate rest IH]; intros trustChains t Hbody Hacc Hres.
  - cbn in Hres. by simplify_eq.
  - unfold settled in *. rewrite resolveCandidates_cons in Hres.
    assert (Hrest : ∀ c statements trustChain, c ∈ rest →
              fetchEntityStatementChain c verify = inr statements →
              resolveCandidate now c statements = Push trustChain →
              P trustChain).
    { intros c statements trustChain Hin. apply Hbody. by right. }
    destruct (fetchEntityStatementChain candidate verify) as [|statements] eqn:Hfetch;
      [done|].
    destruct (resolveCandidate _ _ _) as [|trustChain|error] eqn:Hstep.
    + by eapply IH.
    + eapply IH; [done| |done]. apply Forall_app. split; [done|].
      apply Forall_singleton. eapply Hbody; [by left|done..].
    + done.
Qed.

Lemma resolveCandidates_length verify now candidates trustChains t result :
  settled (resolveCandidates verify now candidates trustChains) t = inr result →
  (length result ≤ length trustChains + length candidates)%nat.
Proof.
  revert trustChains t.
  induction candidates as [|candidate rest IH]; intros trustChains t Hres.
  - cbn in Hres. simplify_eq. lia.
  - unfold settled in *. rewrite resolveCandidates_cons in Hres.
    destruct (fetchEntityStatementChain candidate verify); [done|].
    destruct (resolveCandidate _ _ _) as [|trustChain|error].
    + apply IH in Hres. cbn. lia.
    + apply IH in Hres. rewrite length_app in Hres. cbn in *. lia.
    + done.
Qed.

(** What the body pushes: where each field of the trust chain comes
    from. *)
Lemma resolveCandidate_Push_provenance now candidate statements trustChain :
  resolveCandidate now candidate statements = Push trustChain →
  valid trustChain = true
  ∧ chain trustChain = statements
  ∧ statements ≠ []
  ∧ candidate !! 0%nat = Some (rawLeafEntityConfiguration trustChain)
  ∧ (length statements = 1%nat →
     trustAnchorEntityConfiguration trustChain = rawLeafEntityConfiguration trustChain
     ∧ resolvedLeafMetadata trustChain =
       EntityConfigurationClaims.metadata (rawLeafEntityConfiguration trustChain))
  ∧ (length statements ≠ 1%nat →
     last candidate = Some (trustAnchorEntityConfiguration trustChain)
     ∧ is_Some (resolvedLeafMetadata trustChain)).
Proof.
  unfold resolveCandidate. intros Hpush.
  rewrite at_length_m1_last in Hpush.
  destruct statements as [|first rest]; [done|].
  rewrite bool_decide_eq_false_2 in Hpush by done.
  destruct (existsb _ _); [done|].
  case_bool_decide as Hlen.
  - destruct (candidate !! 0%nat) as [leaf|]; [|done]. simplify_eq. cbn.
    by repeat split.
  - repeat case_match; simplify_eq; cbn; repeat split; try done; by eauto.
Qed.

Lemma existsb_expired_earlier now now' (statements : EntityStatementChain) :
  now' ≤ now →
  existsb (λ statement, EntityStatementClaims.exp statement <? now) statements = false →
  existsb (λ statement, EntityStatementClaims.exp statement <? now') statements = false.
Proof.
  intros Hle. induction statements as [|statement rest IH]; [done|]. cbn.
  rewrite !orb_false_iff. intros [Hfirst Hrest]. split; [|by apply IH].
  apply Z.ltb_ge. apply Z.ltb_ge in Hfirst. lia.
Qed.

(** A call that settles with a list had its discovery return. *)
Lemma resolveTrustChains_returned clock options t result :
  settled (resolveTrustChains clock options) t = inr result →
  ∃ candidates,
    fetchEntityConfigurationChains (entityId options) (trustAnchorEntityIds options)
      (verifyJwtCallback options) = inr candidates.
Proof.
  intros Hres.
  destruct (fetchEntityConfigurationChains _ _ _) as [error|candidates] eqn:Hdiscovery;
    [|by eexists].
  unfold settled in Hres.
  by rewrite (resolveTrustChains_rejected _ _ _ _ Hdiscovery) in Hres.
Qed.

End LoopFacts.

(** X1: when discovery returns, verification returns for every candidate
    and the merger returns, and no configuration chain returned by discovery
    is empty, the call returns normally, after one suspension for discovery
    and one per candidate, with the trust chains the body pushes for the
    candidates, in discovery order. *)
Theorem resolution_without_empty_chains `{Collaborators}
    (clock : Clock) (options : Options) (t : nat)
    (candidates : list EntityConfigurationChain) :
  let verify := verifyJwtCallback options in
  fetchEntityConfigurationChains (entityId options) (trustAnchorEntityIds options)
    verify = inr candidates →
  VerificationReturns verify candidates →
  MergerReturns →
  Forall (λ candidate, candidate ≠ []) candidates →
  resolveTrustChains clock options t =
  (inr (flat_map (λ candidate,
                    match fetchEntityStatementChain candidate verify with
                    | inr statements =>
                        match resolveCandidate (clock t) candidate statements with
                        | Push trustChain => [trustChain]
                        | _ => []
                        end
                    | inl _ => []
                    end) candidates),
   (t + 1 + length candidates)%nat).
Proof.
  intros verify Hdiscovery Hverification Hmerger Hall. subst verify.
  rewrite (resolveTrustChains_unfold _ _ _ _ Hdiscovery).
  rewrite (resolveCandidates_flat_map _ _ _ _ _ Hall Hverification Hmerger). cbn.
  by rewrite Nat.add_1_r.
Qed.

(** X2: a call that returns gives at most one trust chain per candidate
    configuration chain returned by discovery. *)
Theorem at_most_one_trust_chain_per_candidate `{Collaborators}
    (clock : Clock) (options : Options) (t : nat) (result : list TrustChain) :
  settled (resolveTrustChains clock options) t = inr result →
  ∃ candidates,
    fetchEntityConfigurationChains (entityId options) (trustAnchorEntityIds options)
      (verifyJwtCallback options) = inr candidates
    ∧ (length result ≤ length candidates)%nat.
Proof.
  intros Hres.
  destruct (resolveTrustChains_returned _ _ _ _ Hres) as [candidates Hdiscovery].
  exists candidates. split; [done|].
  rewrite (settled_resolveTrustChains _ _ _ _ Hdiscovery) in Hres.
  apply resolveCandidates_length in Hres. cbn in Hres. lia.
Qed.

(** X3: every returned trust chain comes from one of the discovered
    candidates: it is marked valid, its chain is that candidate's non-empty
    verified statement chain, its raw leaf configuration is element 0 of the
    candidate; for a one-statement chain the trust anchor configuration is
    that leaf and the resolved metadata the leaf's own, otherwise the trust
    anchor configuration is the candidate's last element and the resolved
    metadata is present. *)
Theorem returned_trust_chain_provenance `{Collaborators}
    (clock : Clock) (options : Options) (t : nat)
    (result : list TrustChain) (trustChain : TrustChain) :
  settled (resolveTrustChains clock options) t = inr result →
  trustChain ∈ result →
  ∃ candidates candidate,
    fetchEntityConfigurationChains (entityId options) (trustAnchorEntityIds options)
      (verifyJwtCallback options) = inr candidates
    ∧ candidate ∈ candidates
    ∧ valid trustChain = true
    ∧ fetchEntityStatementChain candidate (verifyJwtCallback options)
        = inr (chain trustChain)
    ∧ chain trustChain ≠ []
    ∧ candidate !! 0%nat = Some (rawLeafEntityConfiguration trustChain)
    ∧ (length (chain trustChain) = 1%nat →
       trustAnchorEntityConfiguration trustChain = rawLeafEntityConfiguration trustChain
       ∧ resolvedLeafMetadata trustChain =
         EntityConfigurationClaims.metadata (rawLeafEntityConfiguration trustChain))
    ∧ (length (chain trustChain) ≠ 1%nat →
       last candidate = Some (trustAnchorEntityConfiguration trustChain)
       ∧ is_Some (resolvedLeafMetadata trustChain)).
Proof.
  intros Hres Hin.
  destruct (resolveTrustChains_returned _ _ _ _ Hres) as [candidates Hdiscovery].
  exists candidates.
  rewrite (settled_resolveTrustChains _ _ _ _ Hdiscovery) in Hres.
  revert trustChain Hin. apply Forall_forall.
  eapply resolveCandidates_Forall; [|by apply Forall_nil|exact Hres].
  intros candidate statements pushed Hcandidate Hfetch Hpush.
  apply resolveCandidate_Push_provenance in Hpush
    as (Hvalid & Hchain & Hne & Hleaf & Hone & Hmore).
  exists candidate. rewrite Hchain. by repeat (split; [done|]).
Qed.

(** X4: on a chain of two or more statements the final statement matters
    only through its expiry and as the last entry of the reported chain:
    with another final statement of the same expiry status the body takes
    the same step, pushing the same resolved metadata, leaf and trust anchor
    configuration. *)
Theorem terminal_statement_contributes_no_policy `{Collaborators} (now : Instant)
    (candidate : EntityConfigurationChain)
    (init : list EntityStatementClaims.t) (final final' : EntityStatementClaims.t) :
  init ≠ [] →
  (EntityStatementClaims.exp final <? now) = (EntityStatementClaims.exp final' <? now) →
  resolveCandidate now candidate (init ++ [final']) =
  match resolveCandidate now candidate (init ++ [final]) with
  | Push trustChain =>
      Push {| valid := valid trustChain;
              chain := init ++ [final'];
              rawLeafEntityConfiguration := rawLeafEntityConfiguration trustChain;
              resolvedLeafMetadata := resolvedLeafMetadata trustChain;
              trustAnchorEntityConfiguration := trustAnchorEntityConfiguration trustChain |}
  | step => step
  end.
Proof.
  intros Hinit Hexp. rewrite !resolveCandidate_general by done.
  rewrite !existsb_app. cbn. rewrite Hexp.
  destruct (existsb _ init || _); [done|].
  destruct (combineMetadataPolicies init); [done|].
  destruct (candidate !! 0%nat); [|done].
  destruct (mergeMetadata _ _); [done|].
  destruct (applyMetadataPolicyToMetadata _ _); [done|].
  by destruct (at_length_m1 candidate).
Qed.

(** X5: with collaborators that return (discovery, verification for every
    candidate, the merger), the only error a call throws is the [TypeError]
    of reading the metadata of an absent leaf configuration; the error "No
    trust anchor entity configuration found" never reaches the caller. *)
Theorem only_TypeError_is_thrown `{Collaborators}
    (clock : Clock) (options : Options) (t : nat)
    (candidates : list EntityConfigurationChain) (error : Error) :
  fetchEntityConfigurationChains (entityId options) (trustAnchorEntityIds options)
    (verifyJwtCallback options) = inr candidates →
  VerificationReturns (verifyJwtCallback options) candidates →
  MergerReturns →
  settled (resolveTrustChains clock options) t = inl error →
  error = TypeError "Cannot read properties of undefined (reading 'metadata')".
Proof.
  intros Hdiscovery Hverification Hmerger Hthrow.
  rewrite (settled_resolveTrustChains _ _ _ _ Hdiscovery) in Hthrow.
  apply resolveCandidates_thrown
    in Hthrow as (candidate & Hin & [Hrejected|(statements & Hfetch & Hstep)]).
  - unfold VerificationReturns in Hverification. rewrite Forall_forall in Hverification.
    destruct (Hverification candidate Hin) as [statements Hfetch]. congruence.
  - by apply (resolveCandidate_Throw_inv _ _ _ _ Hmerger) in Hstep as [_ ?].
Qed.


(** X7: the instant only ever excludes.  A trust chain the body pushes at
    one instant is pushed unchanged at every earlier instant; nothing such
    as the issue time [iat] makes a statement not yet valid. *)
Theorem push_is_antitone_in_now `{Collaborators} (now now' : Instant)
    (candidate : EntityConfigurationChain) (statements : EntityStatementChain)
    (trustChain : TrustChain) :
  now' ≤ now →
  resolveCandidate now candidate statements = Push trustChain →
  resolveCandidate now' candidate statements = Push trustChain.
Proof.
  intros Hle Hpush.
  pose proof (resolveCandidate_Push_inv _ _ _ _ Hpush) as [_ Hunexpired].
  pose proof (existsb_expired_earlier _ _ _ Hle Hunexpired) as Hearlier.
  unfold resolveCandidate in *. by rewrite Hunexpired in Hpush; rewrite Hearlier.
Qed.

(** X8: the schema accepts an input exactly when the object schema accepts
    it and the key identifiers of the parsed key set have no repetition; the
    data returned is the object schema's, unchanged. *)
Theorem schema_accepts_iff {Input : Type}
    (objectSchema : Input → ObjectParse)
    (input : Input) (data : EntityStatementClaims.t) :
  entityStatementClaimsSchema objectSchema input = ParseSuccess data ↔
  objectSchema input = Valid data
  ∧ NoDup (map kid (keys (EntityStatementClaims.jwks data))).
Proof.
  unfold entityStatementClaimsSchema. split.
  - destruct (objectSchema input) as [parsed| |]; [|done..].
    destruct (superRefine parsed) eqn:Hrefine; [|done].
    intros ?. simplify_eq. split; [done|].
    by apply superRefine_accepts_iff_NoDup.
  - intros [-> Hnodup].
    by apply superRefine_accepts_iff_NoDup in Hnodup as ->.
Qed.

(** X9: when the schema fails, its issues are those of the object schema,
    followed by the one duplicate-key issue exactly when the parsed key
    identifiers have a repetition: after a valid parse the duplicate issue
    stands alone, after a dirty parse it follows the issues of the other
    fields, and after an aborted parse the refinement has not run. *)
Theorem schema_failure_issues {Input : Type}
    (objectSchema : Input → ObjectParse)
    (input : Input) (issues : list ZodIssue) :
  entityStatementClaimsSchema objectSchema input = ParseError issues →
  match objectSchema input with
  | Valid data =>
      ¬ NoDup (map kid (keys (EntityStatementClaims.jwks data)))
      ∧ issues = [duplicateKeyIdsIssue]
  | Dirty data objectIssues =>
      (NoDup (map kid (keys (EntityStatementClaims.jwks data)))
       ∧ issues = objectIssues)
      ∨ (¬ NoDup (map kid (keys (EntityStatementClaims.jwks data)))
         ∧ issues = objectIssues ++ [duplicateKeyIdsIssue])
  | Aborted objectIssues => issues = objectIssues
  end.
Proof.
  unfold entityStatementClaimsSchema.
  destruct (objectSchema input) as [data|data objectIssues|objectIssues].
  - destruct (decide (NoDup (map kid (keys (EntityStatementClaims.jwks data)))))
      as [Hnodup|Hdup].
    + by apply superRefine_accepts_iff_NoDup in Hnodup as ->.
    + rewrite (superRefine_rejects _ Hdup). intros ?. by simplify_eq.
  - destruct (decide (NoDup (map kid (keys (EntityStatementClaims.jwks data)))))
      as [Hnodup|Hdup].
    + pose proof Hnodup as Hrefine.
      apply superRefine_accepts_iff_NoDup in Hrefine as ->.
      rewrite app_nil_r. intros ?. simplify_eq. by left.
    + rewrite (superRefine_rejects _ Hdup). intros ?. simplify_eq. by right.
  - intros ?. by simplify_eq.
Qed.

(** X10: the duplicate test does not depend on the order of the keys. *)
Theorem refinement_is_permutation_invariant (data data' : EntityStatementClaims.t) :
  keys (EntityStatementClaims.jwks data) ≡ₚ keys (EntityStatementClaims.jwks data') →
  superRefine data = superRefine data'.
Proof.
  intros Hperm.
  assert (Hiff : NoDup (map kid (keys (EntityStatementClaims.jwks data))) ↔
                 NoDup (map kid (keys (EntityStatementClaims.jwks data')))).
  { by rewrite Hperm. }
  destruct (decide (NoDup (map kid (keys (EntityStatementClaims.jwks data))))) as [Hnodup|Hdup].
  - pose proof Hnodup as Hnodup'. apply Hiff in Hnodup'.
    apply superRefine_accepts_iff_NoDup in Hnodup, Hnodup'. congruence.
  - rewrite (superRefine_rejects data), (superRefine_rejects data'); tauto.
Qed.

(** X11: a key set that contains a rejected key set, in the same order, is
    rejected as well; adding keys never repairs a duplicate. *)
Theorem rejection_is_monotone (data data' : EntityStatementClaims.t) :
  keys (EntityStatementClaims.jwks data) `sublist_of` keys (EntityStatementClaims.jwks data') →
  superRefine data = [duplicateKeyIdsIssue] →
  superRefine data' = [duplicateKeyIdsIssue].
Proof.
  intros Hsub Hrejected. apply superRefine_rejects. intros Hnodup.
  assert (Hkids : map kid (keys (EntityStatementClaims.jwks data)) `sublist_of`
                  map kid (keys (EntityStatementClaims.jwks data'))).
  { by apply (fmap_sublist kid). }
  apply (sublist_NoDup _ _ Hnodup), superRefine_accepts_iff_NoDup in Hkids.
  congruence.
Qed.

(** ** The further properties on the example federation *)

Lemma resolution_without_empty_chains_witness :
  @resolveTrustChains (tableCollaborators federationTable)
    driftingClock exampleOptions 0%nat = (inr [directTrustChain], 3%nat).
Proof.
  apply (@resolution_without_empty_chains (tableCollaborators federationTable)
           driftingClock exampleOptions 0%nat
           [[leafConfiguration];
            [leafConfiguration; intermediateConfiguration; anchorConfiguration]]).
  - reflexivity.
  - repeat constructor; by eexists.
  - intros subject superior. by eexists.
  - repeat constructor; discriminate.
Defined.

Lemma at_most_one_trust_chain_per_candidate_witness :
  ∃ candidates,
    @fetchEntityConfigurationChains (tableCollaborators federationTable)
      (entityId exampleOptions) (trustAnchorEntityIds exampleOptions)
      (verifyJwtCallback exampleOptions) = inr candidates
    ∧ (length [directTrustChain] ≤ length candidates)%nat.
Proof.
  apply (@at_most_one_trust_chain_per_candidate (tableCollaborators federationTable)
           driftingClock exampleOptions 0%nat [directTrustChain]).
  reflexivity.
Defined.

Lemma returned_trust_chain_provenance_witness :
  ∃ candidates candidate,
    @fetchEntityConfigurationChains (tableCollaborators federationTable)
      (entityId exampleOptions) (trustAnchorEntityIds exampleOptions)
      (verifyJwtCallback exampleOptions) = inr candidates
    ∧ candidate ∈ candidates
    ∧ valid directTrustChain = true
    ∧ @fetchEntityStatementChain (tableCollaborators federationTable) candidate
        (verifyJwtCallback exampleOptions) = inr (chain directTrustChain)
    ∧ chain directTrustChain ≠ []
    ∧ candidate !! 0%nat = Some (rawLeafEntityConfiguration directTrustChain)
    ∧ (length (chain directTrustChain) = 1%nat →
       trustAnchorEntityConfiguration directTrustChain
         = rawLeafEntityConfiguration directTrustChain
       ∧ resolvedLeafMetadata directTrustChain =
         EntityConfigurationClaims.metadata (rawLeafEntityConfiguration directTrustChain))
    ∧ (length (chain directTrustChain) ≠ 1%nat →
       last candidate = Some (trustAnchorEntityConfiguration directTrustChain)
       ∧ is_Some (resolvedLeafMetadata directTrustChain)).
Proof.
  apply (@returned_trust_chain_provenance (tableCollaborators federationTable)
           driftingClock exampleOptions 0%nat [directTrustChain] directTrustChain).
  - reflexivity.
  - apply list_elem_of_here.
Defined.

Lemma terminal_statement_contributes_no_policy_witness :
  @resolveCandidate (tableCollaborators criticalAnchorTable) 1000
    [leafConfiguration; anchorConfiguration] [superiorStatement; anchorStatement] =
  Push anchoredTrustChain.
Proof.
  apply (@terminal_statement_contributes_no_policy
           (tableCollaborators criticalAnchorTable) 1000
           [leafConfiguration; anchorConfiguration]
           [superiorStatement] criticalAnchorStatement anchorStatement).
  - discriminate.
  - reflexivity.
Defined.

Lemma only_TypeError_is_thrown_witness :
  @settled _ (@resolveTrustChains (tableCollaborators emptyChainWithStatementTable)
                driftingClock exampleOptions) 0 =
    inl (TypeError "Cannot read properties of undefined (reading 'metadata')")
  ∧ TypeError "Cannot read properties of undefined (reading 'metadata')" =
    TypeError "Cannot read properties of undefined (reading 'metadata')".
Proof.
  split; [reflexivity|].
  apply (@only_TypeError_is_thrown (tableCollaborators emptyChainWithStatementTable)
           driftingClock exampleOptions 0%nat [[]]).
  - reflexivity.
  - repeat constructor; by eexists.
  - intros subject superior. by eexists.
  - reflexivity.
Defined.


Lemma push_is_antitone_in_now_witness :
  @resolveCandidate (tableCollaborators federationTable) 10
    [leafConfiguration] [directStatement] = Push directTrustChain.
Proof.
  apply (@push_is_antitone_in_now (tableCollaborators federationTable) 1000 10).
  - discriminate.
  - reflexivity.
Defined.

Lemma schema_accepts_iff_witness :
  entityStatementClaimsSchema acceptObject
    (claimsWithKeys [keyWithId "key-1"; keyWithoutId; keyWithId "key-2"])
  = ParseSuccess (claimsWithKeys [keyWithId "key-1"; keyWithoutId; keyWithId "key-2"]).
Proof.
  apply (proj2 (schema_accepts_iff acceptObject _ _)).
  split; [reflexivity|].
  cbn. repeat (apply NoDup_cons; split;
               [rewrite ?elem_of_cons, elem_of_nil; intros Hin;
                repeat (destruct Hin as [Hin|Hin]; [discriminate Hin|]); exact Hin|]).
  apply NoDup_nil_2.
Defined.

(** After a dirty parse the duplicate issue follows the issue of the other
    field. *)
Lemma schema_failure_issues_witness :
  (NoDup (map kid [keyWithId "key-1"; keyWithId "key-1"])
   ∧ [invalidUrlIssue; duplicateKeyIdsIssue] = [invalidUrlIssue])
  ∨ (¬ NoDup (map kid [keyWithId "key-1"; keyWithId "key-1"])
     ∧ [invalidUrlIssue; duplicateKeyIdsIssue] = [invalidUrlIssue] ++ [duplicateKeyIdsIssue]).
Proof.
  apply (schema_failure_issues dirtyObject
           (claimsWithKeys [keyWithId "key-1"; keyWithId "key-1"])
           [invalidUrlIssue; duplicateKeyIdsIssue]).
  reflexivity.
Defined.

Lemma refinement_is_permutation_invariant_witness :
  superRefine (claimsWithKeys [keyWithoutId; keyWithId "key-1"; keyWithoutId]) =
  superRefine (claimsWithKeys [keyWithId "key-1"; keyWithoutId; keyWithoutId]).
Proof.
  apply refinement_is_permutation_invariant. cbn. apply perm_swap.
Defined.

Lemma rejection_is_monotone_witness :
  superRefine (claimsWithKeys [keyWithId "key-1"; keyWithId "key-2"; keyWithId "key-1"])
  = [duplicateKeyIdsIssue].
Proof.
  apply (rejection_is_monotone
           (claimsWithKeys [keyWithId "key-1"; keyWithId "key-1"])).
  - cbn. apply sublist_skip, sublist_cons, sublist_skip, sublist_nil.
  - reflexivity.
Defined.
